(** * Verification of the retrieval pipeline of [app.py]

    The development embeds the core of the document chatbot: the chunker
    inside [process_document], the cosine-similarity retriever
    [find_relevant_chunks], the answer synthesizer [query_deepseek] and the
    request handlers [upload_document], [ask_question] and [save_settings]
    together with the process-wide state they share.

    Python values are modelled as follows.
    - [str] is [string]; one [ascii] stands for one code point below 256,
      so [String.length] is Python's [len] on such texts.
    - [int] is [Z], except lengths and list positions, which are [nat].
    - numpy floating-point numbers are Rocq's primitive binary64 floats.
    - [dict] objects used as tables are [gmap]s keyed by [string].
    - a raised exception is carried by [Raise] with the text of [str(e)]. *)

From Stdlib Require Import ZArith String Ascii List Floats Sorted Lia.
From Stdlib Require Import DecimalString.
From stdpp Require Import gmap strings list.

(** ** Python strings *)

Module PyStr.

(** The newline character, the separator of [text.split('\n')]. *)
Definition nl : ascii := "010"%char.

(** [str.isspace] on one code point below 256: tab to carriage return,
    the four information separators, space, NEL and no-break space. *)
Definition isspace (c : ascii) : bool :=
  let n := N_of_ascii c in
  ((9 <=? n) && (n <=? 13) || (28 <=? n) && (n <=? 32)
   || (n =? 133) || (n =? 160))%N.

Fixpoint lstrip (s : string) : string :=
  match s with
  | EmptyString => EmptyString
  | String c s' => if isspace c then lstrip s' else s
  end.

Fixpoint rstrip (s : string) : string :=
  match s with
  | EmptyString => EmptyString
  | String c s' =>
      match rstrip s' with
      | EmptyString => if isspace c then EmptyString else String c EmptyString
      | r => String c r
      end
  end.

(** [s.strip()] *)
Definition strip (s : string) : string := rstrip (lstrip s).

(** [s.split(sep)] for a one-character separator: never the empty list. *)
Fixpoint split (sep : ascii) (s : string) : list string :=
  match s with
  | EmptyString => [EmptyString]
  | String c s' =>
      if Ascii.eqb c sep then EmptyString :: split sep s'
      else match split sep s' with
           | [] => [String c EmptyString]
           | w :: ws => String c w :: ws
           end
  end.

(** Truth value of a string in a condition: [if s:]. *)
Definition truthy (s : string) : bool :=
  match s with
  | EmptyString => false
  | String _ _ => true
  end.

(** [sep.join(parts)] *)
Fixpoint join (sep : string) (parts : list string) : string :=
  match parts with
  | [] => EmptyString
  | [p] => p
  | p :: rest => p +:+ sep +:+ join sep rest
  end.

(** [c * n] for a one-character string [c]. *)
Fixpoint replicate (n : nat) (c : ascii) : string :=
  match n with
  | O => EmptyString
  | S n' => String c (replicate n' c)
  end.

End PyStr.

(** ** The chunker of [process_document] *)

(** State of the loop over [paragraphs]: the list [chunks] and the string
    [current_chunk]. *)
Definition chunker_state : Type := list string * string.

(** One iteration of [for paragraph in paragraphs]. *)
Definition chunk_step (st : chunker_state) (paragraph : string) : chunker_state :=
  let '(chunks, current_chunk) := st in
  if String.length (PyStr.strip paragraph) <? 5 then st
  else if 500 <? String.length current_chunk + String.length paragraph then
    ((if PyStr.truthy current_chunk
      then chunks ++ [PyStr.strip current_chunk] else chunks),
     paragraph)
  else
    (chunks,
     if PyStr.truthy current_chunk
     then current_chunk +:+ (" " +:+ paragraph) else paragraph).

(** The chunking part of [process_document]: everything up to the call of
    the embedding model. *)
Definition split_chunks (text : string) : list string :=
  let paragraphs := PyStr.split PyStr.nl text in
  let '(chunks, current_chunk) := fold_left chunk_step paragraphs ([], EmptyString) in
  if PyStr.truthy current_chunk
  then chunks ++ [PyStr.strip current_chunk] else chunks.

(** ** The accumulation algorithm as the specification words it *)

(** Segments that survive the noise filter, in order. *)
Definition kept_segments (text : string) : list string :=
  List.filter (fun seg => 5 <=? String.length (PyStr.strip seg))
              (PyStr.split PyStr.nl text).

(** Appending a segment to the running buffer: a single space separates it
    from what the buffer already holds. *)
Definition append_segment (buffer seg : string) : string :=
  if PyStr.truthy buffer then buffer +:+ (" " +:+ seg) else seg.

(** Closing a buffer emits its stripped text; an empty buffer emits nothing. *)
Definition close_buffer (buffer : string) : list string :=
  if PyStr.truthy buffer then [PyStr.strip buffer] else [].

(** The accumulation, for a given overflow test. *)
Fixpoint accumulate (overflows : string -> string -> bool)
         (buffer : string) (segs : list string) : list string :=
  match segs with
  | [] => close_buffer buffer
  | seg :: rest =>
      if overflows buffer seg
      then close_buffer buffer ++ accumulate overflows seg rest
      else accumulate overflows (append_segment buffer seg) rest
  end.

(** The overflow test read literally: the buffer, once the segment has been
    appended to it, would be longer than 500 characters.  The check is about
    concatenation only, so it never fires on an empty buffer. *)
Definition overflows_appended (buffer seg : string) : bool :=
  PyStr.truthy buffer && (500 <? String.length (append_segment buffer seg)).

(** The overflow test of the code: the two lengths are added, the separating
    space is not counted. *)
Definition overflows_sum (buffer seg : string) : bool :=
  500 <? String.length buffer + String.length seg.

(** Reference chunker following the wording of the specification. *)
Definition chunk_reference (text : string) : list string :=
  accumulate overflows_appended EmptyString (kept_segments text).

(** Reference chunker with the overflow test on the sum of the lengths. *)
Definition chunk_reference_sum (text : string) : list string :=
  accumulate overflows_sum EmptyString (kept_segments text).

(** The groups of segments that make up the chunks: [current] holds the
    segments already joined into the running buffer. *)
Definition join_segments (parts : list string) : string :=
  fold_left append_segment parts EmptyString.

Fixpoint segment_groups (current : list string) (segs : list string)
  : list (list string) :=
  match segs with
  | [] => if PyStr.truthy (join_segments current) then [current] else []
  | seg :: rest =>
      if overflows_sum (join_segments current) seg
      then (if PyStr.truthy (join_segments current) then [current] else [])
             ++ segment_groups [seg] rest
      else segment_groups (current ++ [seg]) rest
  end.

(** The scenario text of the specification and a text at the 500 boundary. *)
Definition scenario_text : string :=
  "Title" +:+ String PyStr.nl (String PyStr.nl
    ("Paragraph one text here." +:+ String PyStr.nl
       ("Paragraph two text here." +:+ String PyStr.nl EmptyString))).

Definition boundary_text : string :=
  PyStr.replicate 250 "a" +:+ String PyStr.nl (PyStr.replicate 250 "b").

(** ** Exceptions and results *)

(** The exceptions the program deals with: any library or built-in
    exception, known by its text, and FastAPI's [HTTPException]. *)
Inductive exn : Type :=
| Exception (msg : string)
| HTTPException (status_code : Z) (detail : string).

(** [str(n)] for an integer. *)
Definition str_int (n : Z) : string := NilZero.string_of_int (Z.to_int n).

(** [str(e)]; for [HTTPException] the text Starlette gives it,
    [f"{status_code}: {detail}"]. *)
Definition str_exn (e : exn) : string :=
  match e with
  | Exception msg => msg
  | HTTPException status_code detail => str_int status_code +:+ (": " +:+ detail)
  end.

(** Outcome of a computation without side effects that may raise. *)
Inductive result (A : Type) : Type :=
| Ok (a : A)
| Raise (e : exn).
Arguments Ok {A} a.
Arguments Raise {A} e.

#[global] Instance result_ret : MRet result := fun A a => Ok a.
#[global] Instance result_bind : MBind result := fun A B f r =>
  match r with
  | Ok a => f a
  | Raise e => Raise e
  end.

(** [l[i]] for a non-negative position: [IndexError] out of range. *)
Definition getitem {A : Type} (l : list A) (i : nat) : result A :=
  match l !! i with
  | Some x => Ok x
  | None => Raise (Exception "list index out of range")
  end.

Fixpoint traverse {A B : Type} (f : A -> result B) (l : list A) : result (list B) :=
  match l with
  | [] => Ok []
  | x :: rest => y ← f x; ys ← traverse f rest; Ok (y :: ys)
  end.

(** ** numpy on lists of binary64 numbers

    The embedding model produces single-precision arrays; the operations
    below round in double precision.  Nothing proved in this development
    depends on the precision: what matters is the IEEE behaviour of zero
    denominators, of NaN in comparisons and of the sort. *)

Module NumPy.

(** [np.dot] of two one-dimensional arrays of the same length, summed
    from the left. *)
Definition dot (u v : list float) : float :=
  fold_left (fun acc xy => (acc + fst xy * snd xy)%float) (combine u v) 0%float.

(** [np.linalg.norm] of one row: the square root of the sum of squares. *)
Definition norm (v : list float) : float := PrimFloat.sqrt (dot v v).

(** The order numpy sorts floating-point numbers by: the usual [<], with
    every NaN placed after every number. *)
Definition sort_lt (a b : float) : bool :=
  if PrimFloat.is_nan a then false
  else if PrimFloat.is_nan b then true
  else PrimFloat.ltb a b.

(** [enumerate(a)] *)
Definition enumerate (a : list float) : list (nat * float) :=
  combine (seq 0 (length a)) a.

(** Insertion of the entry [e] into a sorted run, before the first entry
    that is greater.  In a sorted run the greater entries are at the end,
    so this is where numpy's insertion, which moves the new entry left past
    the greater ones, stops. *)
Fixpoint insert_entry (e : nat * float) (run : list (nat * float))
  : list (nat * float) :=
  match run with
  | [] => [e]
  | e' :: rest =>
      if sort_lt (snd e) (snd e') then e :: run
      else e' :: insert_entry e rest
  end.

(** The entries of [a] in ascending order, by insertion sort.  This is one
    sort among those numpy allows: numpy promises that the values ascend,
    NaN last, and promises nothing about the order of equal values (its
    default sort is not stable).  The sort is here to run the code on
    examples; what is stated of the order of the result for every input
    is stated for every sort that keeps numpy's promise
    ([argsort_contract] below). *)
Definition sorted_entries (a : list float) : list (nat * float) :=
  fold_left (fun run e => insert_entry e run) (enumerate a) [].

(** [np.argsort(a)], with the insertion sort above. *)
Definition argsort (a : list float) : list nat := map fst (sorted_entries a).

(** [l[start:]] with Python's treatment of a negative or too large start. *)
Definition slice_from {A : Type} (start : Z) (l : list A) : list A :=
  let n := Z.of_nat (length l) in
  let lo := if (start <? 0)%Z then Z.max (start + n) 0 else Z.min start n in
  drop (Z.to_nat lo) l.

(** Whether [rows], stacked by [np.asarray], is a two-dimensional array
    whose rows have the dimension of [q].  With no row at all the stacked
    array has shape [(0,)], and both [np.dot] and the norm along axis 1
    raise. *)
Definition aligned (rows : list (list float)) (q : list float) : bool :=
  match rows with
  | [] => false
  | _ => forallb (fun row => length row =? length q) rows
  end.

(** The text of the exception numpy raises for operands that [aligned]
    refuses.  Zero rows stack to an array of shape [(0,)]: [np.dot] raises
    for a question vector that is not empty, and the norm along axis 1
    raises for one that is.  Otherwise the rows have a length other than
    that of [q], and the text names the first such row (rows of unequal
    lengths stand for no array). *)
Definition not_aligned_text (rows : list (list float)) (q : list float) : string :=
  let d := str_int (Z.of_nat (length q)) in
  match rows with
  | [] =>
      if length q =? 0 then "axis 1 is out of bounds for array of dimension 1"
      else "shapes (0,) and (" +:+ d +:+ ",) not aligned: 0 (dim 0) != "
             +:+ d +:+ " (dim 0)"
  | first :: _ =>
      let row := default first (List.find (fun row => negb (length row =? length q)) rows) in
      let m := str_int (Z.of_nat (length row)) in
      "shapes (" +:+ str_int (Z.of_nat (length rows)) +:+ "," +:+ m
        +:+ ") and (" +:+ d +:+ ",) not aligned: " +:+ m +:+ " (dim 1) != "
        +:+ d +:+ " (dim 0)"
  end.

End NumPy.

(** ** The retriever *)

(** Lines 121-123 of [find_relevant_chunks]: the cosine similarity of every
    row with the question vector.  A zero denominator raises nothing in
    numpy: the quotient is NaN or an infinity. *)
Definition cosine_similarities (chunk_embeddings : list (list float))
           (question_embedding : list float) : result (list float) :=
  if NumPy.aligned chunk_embeddings question_embedding then
    Ok (map (fun row =>
               (NumPy.dot row question_embedding
                / (NumPy.norm row * NumPy.norm question_embedding))%float)
            chunk_embeddings)
  else Raise (Exception (NumPy.not_aligned_text chunk_embeddings question_embedding)).

(** Line 126: [np.argsort(similarities)[-top_k:][::-1]]. *)
Definition top_indices (similarities : list float) (top_k : Z) : list nat :=
  reverse (NumPy.slice_from (- top_k) (NumPy.argsort similarities)).

(** Lines 121-131: what [find_relevant_chunks] does once the question has
    been embedded. *)
Definition retrieve (question_embedding : list float)
           (chunk_embeddings : list (list float)) (chunks : list string)
           (top_k : Z) : result (list string * list float) :=
  similarities ← cosine_similarities chunk_embeddings question_embedding;
  let top := top_indices similarities top_k in
  relevant_chunks ← traverse (getitem chunks) top;
  relevance_scores ← traverse (getitem similarities) top;
  Ok (relevant_chunks, relevance_scores).

(** [similarities[i]] for an index in range. *)
Definition score_at (similarities : list float) (i : nat) : float :=
  nth i similarities nan.

(** The claimed order of the result: positions [p < q] of the selected
    indices never carry an increasing pair of scores, and of two selected
    chunks with equal scores the one with the lower index comes first. *)
Definition non_increasing (similarities : list float) (top : list nat) : Prop :=
  forall p q i j, p < q -> top !! p = Some i -> top !! q = Some j ->
    PrimFloat.ltb (score_at similarities i) (score_at similarities j) = false.

Definition ties_lower_index_first (similarities : list float) (top : list nat) : Prop :=
  forall p q i j, p < q -> top !! p = Some i -> top !! q = Some j ->
    PrimFloat.eqb (score_at similarities i) (score_at similarities j) = true ->
    i < j.

(** The order of equal scores under the insertion sort [NumPy.argsort]. *)
Definition ties_higher_index_first (similarities : list float) (top : list nat) : Prop :=
  forall p q i j, p < q -> top !! p = Some i -> top !! q = Some j ->
    PrimFloat.eqb (score_at similarities i) (score_at similarities j) = true ->
    j < i.

(** A chunk whose score is undefined is ranked as if it had the minimum
    score: whenever it is selected, every chunk with a defined score is
    selected too, and earlier. *)
Definition undefined_ranked_last (similarities : list float) (top : list nat) : Prop :=
  forall i j p,
    PrimFloat.is_nan (score_at similarities i) = true ->
    j < length similarities ->
    PrimFloat.is_nan (score_at similarities j) = false ->
    top !! p = Some i ->
    exists q, q < p /\ top !! q = Some j.

(** What the code does instead: an undefined score is ranked first. *)
Definition undefined_ranked_first (similarities : list float) (top : list nat) : Prop :=
  forall i j q,
    PrimFloat.is_nan (score_at similarities i) = true ->
    i < length similarities ->
    PrimFloat.is_nan (score_at similarities j) = false ->
    top !! q = Some j ->
    exists p, p < q /\ top !! p = Some i.

(** A vector all of whose components are zero (of either sign). *)
Definition zero_vector (v : list float) : Prop :=
  Forall (fun x => PrimFloat.eqb x 0%float = true) v.

(** What numpy promises of [np.argsort]: the result holds every position
    of the array exactly once, and along it the values ascend in numpy's
    sort order, NaN last.  The order of positions that hold equal values
    is left open. *)
Definition argsort_contract (argsort : list float -> list nat) : Prop :=
  forall a,
    argsort a ≡ₚ seq 0 (length a)
    /\ forall p q i j, p < q -> argsort a !! p = Some i -> argsort a !! q = Some j ->
         NumPy.sort_lt (score_at a j) (score_at a i) = false.

(** Line 126 and lines 121-131 with the sort left open: the same code, for
    any function in the place of [np.argsort]. *)
Definition top_indices_by (argsort : list float -> list nat)
           (similarities : list float) (top_k : Z) : list nat :=
  reverse (NumPy.slice_from (- top_k) (argsort similarities)).

Definition retrieve_by (argsort : list float -> list nat)
           (question_embedding : list float)
           (chunk_embeddings : list (list float)) (chunks : list string)
           (top_k : Z) : result (list string * list float) :=
  similarities ← cosine_similarities chunk_embeddings question_embedding;
  let top := top_indices_by argsort similarities top_k in
  relevant_chunks ← traverse (getitem chunks) top;
  relevance_scores ← traverse (getitem similarities) top;
  Ok (relevant_chunks, relevance_scores).

(** The selected scores descend in numpy's sort order, in which NaN is
    above every number: no position holds a score that sorts before the
    score of a later position. *)
Definition descending_in_sort_order (similarities : list float) (top : list nat) : Prop :=
  forall p q i j, p < q -> top !! p = Some i -> top !! q = Some j ->
    NumPy.sort_lt (score_at similarities i) (score_at similarities j) = false.

(** ** The language-model backend as the program sees it *)

(** The JSON document sent to the backend: [data] of [query_deepseek]. *)
Record ChatPayload : Type := {
  model : string;
  messages : list (string * string);
  temperature : float;
  max_tokens : Z
}.

(** One call of [requests.post]: the URL and the keyword arguments.
    [timeout] is the keyword of that name, [None] when it is not passed,
    in which case [requests] waits for the server without limit. *)
Record PostCall : Type := {
  url : string;
  headers : list (string * string);
  data : ChatPayload;
  timeout : option Z
}.

(** A response: its status, its raw body, and what
    [response.json()["choices"][0]["message"]["content"]] evaluates to,
    which is an exception when the body is not JSON of that shape. *)
Record Response : Type := {
  status_code : Z;
  text : string;
  json_content : result string
}.

(** What the network does with a call: the server answers, the transport
    fails with an exception, or the server never answers. *)
Inductive Network : Type :=
| Replies (r : Response)
| Fails (msg : string)
| Silent.

(** [requests.post]: [None] stands for a call that never returns.  A call
    with a timeout turns a silent server into an exception. *)
Definition requests_post (call : PostCall) (net : Network) : option (result Response) :=
  match net with
  | Replies r => Some (Ok r)
  | Fails msg => Some (Raise (Exception msg))
  | Silent =>
      match timeout call with
      | Some _ => Some (Raise (Exception "Read timed out."))
      | None => None
      end
  end.

(** ** Process-wide state *)

(** One value of the [documents] table. *)
Record Document : Type := {
  doc_filename : string;
  doc_path : string;
  doc_text : string;
  doc_chunks : list string
}.

(** The module-level variables of [app.py], and the calls sent to the
    backend so far, newest last. *)
Record World : Type := {
  DEEPSEEK_API_KEY : string;
  documents : gmap string Document;
  document_embeddings : gmap string (list (list float));
  posted : list PostCall
}.

Definition set_DEEPSEEK_API_KEY (key : string) (w : World) : World :=
  {| DEEPSEEK_API_KEY := key;
     documents := documents w;
     document_embeddings := document_embeddings w;
     posted := posted w |}.

Definition set_documents (id : string) (d : Document) (w : World) : World :=
  {| DEEPSEEK_API_KEY := DEEPSEEK_API_KEY w;
     documents := <[id := d]> (documents w);
     document_embeddings := document_embeddings w;
     posted := posted w |}.

Definition set_document_embeddings (id : string) (e : list (list float))
           (w : World) : World :=
  {| DEEPSEEK_API_KEY := DEEPSEEK_API_KEY w;
     documents := documents w;
     document_embeddings := <[id := e]> (document_embeddings w);
     posted := posted w |}.

Definition record_post (call : PostCall) (w : World) : World :=
  {| DEEPSEEK_API_KEY := DEEPSEEK_API_KEY w;
     documents := documents w;
     document_embeddings := document_embeddings w;
     posted := posted w ++ [call] |}.

(** The state right after the module has been loaded. *)
Definition initial_world (configured_key : string) : World :=
  {| DEEPSEEK_API_KEY := configured_key;
     documents := ∅;
     document_embeddings := ∅;
     posted := [] |}.

(** ** Computations on the process state *)

(** A computation returns a value, raises, or never returns; each time the
    state it has reached is known. *)
Inductive outcome (A : Type) : Type :=
| Done (a : A) (w : World)
| Raised (e : exn) (w : World)
| Hung (w : World).
Arguments Done {A} a w.
Arguments Raised {A} e w.
Arguments Hung {A} w.

Definition M (A : Type) : Type := World -> outcome A.

#[global] Instance M_ret : MRet M := fun A a w => Done a w.
#[global] Instance M_bind : MBind M := fun A B k m w =>
  match m w with
  | Done a w' => k a w'
  | Raised e w' => Raised e w'
  | Hung w' => Hung w'
  end.

Definition raise {A : Type} (e : exn) : M A := fun w => Raised e w.

Definition lift {A : Type} (r : result A) : M A := fun w =>
  match r with
  | Ok a => Done a w
  | Raise e => Raised e w
  end.

Definition get_world : M World := fun w => Done w w.

Definition modify (f : World -> World) : M unit := fun w => Done tt (f w).

(** [try: body / except Exception as e: handler e] *)
Definition try_except {A : Type} (body : M A) (handler : exn -> M A) : M A := fun w =>
  match body w with
  | Done a w' => Done a w'
  | Raised e w' => handler e w'
  | Hung w' => Hung w'
  end.

(** [try: body / finally: cleanup]: the cleanup runs when the body returns
    and when it raises, and the exception is raised again after it. *)
Definition try_finally {A : Type} (body : M A) (cleanup : M unit) : M A := fun w =>
  match body w with
  | Done a w' =>
      match cleanup w' with
      | Done _ w'' => Done a w''
      | Raised e w'' => Raised e w''
      | Hung w'' => Hung w''
      end
  | Raised e w' =>
      match cleanup w' with
      | Done _ w'' => Raised e w''
      | Raised e' w'' => Raised e' w''
      | Hung w'' => Hung w''
      end
  | Hung w' => Hung w'
  end.

(** The state a computation leaves behind, whatever its outcome. *)
Definition final_world {A : Type} (o : outcome A) : World :=
  match o with
  | Done _ w => w
  | Raised _ w => w
  | Hung w => w
  end.

(** ** The answer synthesizer *)

Definition DEEPSEEK_API_URL : string := "https://api.deepseek.com/v1/chat/completions".

(** Letters of the prompt outside ASCII, as single code points. *)
Definition a_acute : string := String "225"%char EmptyString.
Definition e_acute : string := String "233"%char EmptyString.
Definition o_acute : string := String "243"%char EmptyString.
Definition u_acute : string := String "250"%char EmptyString.

Definition newline : string := String PyStr.nl EmptyString.

(** The f-string of lines 142-155. *)
Definition build_prompt (context question : string) : string :=
  PyStr.join newline
    [ "Act" +:+ u_acute +:+ "a como un asistente experto que responde preguntas basadas en la informaci"
        +:+ o_acute +:+ "n proporcionada.";
      "    ";
      "CONTEXTO:";
      context;
      "";
      "INSTRUCCIONES:";
      "- Responde la pregunta bas" +:+ a_acute +:+ "ndote " +:+ u_acute
        +:+ "nicamente en la informaci" +:+ o_acute +:+ "n del CONTEXTO proporcionado.";
      "- Si la informaci" +:+ o_acute +:+ "n no est" +:+ a_acute
        +:+ " en el CONTEXTO, indica honestamente que no puedes responder.";
      "- S" +:+ e_acute +:+ " conciso y directo en tus respuestas.";
      "- No inventes informaci" +:+ o_acute +:+ "n.";
      "";
      "PREGUNTA: " +:+ question;
      "";
      "RESPUESTA:" ].

(** The failures the specification names, and the text by which
    [query_deepseek] reports each of them to its caller. *)
Inductive SynthesisError : Type :=
| MissingCredential
| BackendError (status : Z) (body : string)
| TransportError (cause : string).

Definition error_text (e : SynthesisError) : string :=
  match e with
  | MissingCredential => "Error: API key de Deepseek no configurada."
  | BackendError status body =>
      "Error al consultar la API: " +:+ str_int status +:+ " - " +:+ body
  | TransportError cause => "Error al procesar la pregunta: " +:+ cause
  end.

(** The call [query_deepseek] sends; the temperature is the binary64
    number that Python reads [0.1] as. *)
Definition deepseek_call (key prompt : string) : PostCall :=
  {| url := DEEPSEEK_API_URL;
     headers := [("Content-Type", "application/json");
                 ("Authorization", "Bearer " +:+ key)];
     data := {| model := "deepseek-chat";
                messages := [("user", prompt)];
                temperature := 0x1.999999999999ap-4%float;
                max_tokens := 500 |};
     timeout := None |}.

(** [query_deepseek(question, context_chunks)] against a network that
    behaves as [net]. *)
Definition query_deepseek (net : Network) (question : string)
           (context_chunks : list string) : M string := fun w =>
  if negb (PyStr.truthy (DEEPSEEK_API_KEY w)) then
    Done "Error: API key de Deepseek no configurada." w
  else
    let context := PyStr.join (newline +:+ newline) context_chunks in
    let prompt := build_prompt context question in
    let call := deepseek_call (DEEPSEEK_API_KEY w) prompt in
    let w' := record_post call w in
    match requests_post call net with
    | None => Hung w'
    | Some (Raise e) => Done ("Error al procesar la pregunta: " +:+ str_exn e) w'
    | Some (Ok response) =>
        if (status_code response =? 200)%Z then
          match json_content response with
          | Ok answer => Done answer w'
          | Raise e => Done ("Error al procesar la pregunta: " +:+ str_exn e) w'
          end
        else
          Done ("Error al consultar la API: " +:+ str_int (status_code response)
                  +:+ " - " +:+ text response) w'
    end.

(** The value of the [Authorization] header of a call. *)
Definition authorization (call : PostCall) : option string :=
  snd <$> List.find (fun h => String.eqb (fst h) "Authorization") (headers call).

(** ** Documents and questions *)

(** The pydantic model [Question]: the two declared fields. *)
Record Question : Type := {
  question : string;
  document_id : string
}.

(** Validation of a JSON request body against [Question]: both declared
    fields are required, and a field that is not declared is ignored, which
    is pydantic's default for a [BaseModel]. *)
Definition Question_validate (body : gmap string string) : option Question :=
  q ← body !! "question";
  d ← body !! "document_id";
  Some {| question := q; document_id := d |}.

(** [getattr(question_data, name, default)] on a validated [Question]. *)
Definition Question_getattr (question_data : Question) (name : string)
           (default : option string) : option string :=
  if String.eqb name "question" then Some (question question_data)
  else if String.eqb name "document_id" then Some (document_id question_data)
  else default.

(** [table[key]], a [KeyError] when the key is missing. *)
Definition lookup_key {V : Type} (table : gmap string V) (key : string) : result V :=
  match table !! key with
  | Some v => Ok v
  | None => Raise (Exception ("'" +:+ key +:+ "'"))
  end.

(** [if key: DEEPSEEK_API_KEY = key], for a key that may be absent. *)
Definition override_key (key : option string) : M unit :=
  match key with
  | Some k => if PyStr.truthy k then modify (set_DEEPSEEK_API_KEY k) else mret tt
  | None => mret tt
  end.

Section Handlers.

(** [embedding_model.encode]: a batch of texts to a batch of vectors, or
    an exception. *)
Variable encode : list string -> result (list (list float)).

(** [process_document(text)] *)
Definition process_document (text : string)
  : result (list string * list (list float)) :=
  let chunks := split_chunks text in
  chunk_embeddings ← encode chunks;
  Ok (chunks, chunk_embeddings).

(** [find_relevant_chunks(chunks, chunk_embeddings, question, top_k)] *)
Definition find_relevant_chunks (chunks : list string)
           (chunk_embeddings : list (list float)) (question : string)
           (top_k : Z) : result (list string * list float) :=
  encoded ← encode [question];
  question_embedding ← getitem encoded 0;
  retrieve question_embedding chunk_embeddings chunks top_k.

(** [upload_document]: [document_id] is the identifier [uuid4] produced,
    [saved] the outcome of writing the upload to disk and [extracted] the
    outcome of [extract_text] on the written file.  The file system is
    not part of the state, so the [os.remove] of the inner handler leaves
    no trace here.  The [HTTPException] with status 400 that the inner
    handler raises is itself caught by the outer [except Exception] and
    reaches the client as a 500. *)
Definition upload_document (document_id filename : string)
           (saved : result unit) (extracted : result string)
  : M (string * string) :=
  let file_path := "uploads/" +:+ document_id +:+ "_" +:+ filename in
  try_except
    (lift saved;;
     try_except
       (document_text ← lift extracted;
        '(chunks, chunk_embeddings) ← lift (process_document document_text);
        modify (set_documents document_id
                  {| doc_filename := filename;
                     doc_path := file_path;
                     doc_text := document_text;
                     doc_chunks := chunks |});;
        modify (set_document_embeddings document_id chunk_embeddings);;
        mret (document_id, "Documento subido correctamente"))
       (fun e => raise (HTTPException 400
                   ("Error al procesar el documento: " +:+ str_exn e))))
    (fun e => raise (HTTPException 500
                ("Error al subir el documento: " +:+ str_exn e))).

(** [ask_question(question_data)]; the value returned is the answer. *)
Definition ask_question (net : Network) (question_data : Question) : M string :=
  let document_id := document_id question_data in
  let question := question question_data in
  let api_key := Question_getattr question_data "api_key" None in
  w ← get_world;
  if negb (bool_decide (is_Some (documents w !! document_id))) then
    raise (HTTPException 404 "Documento no encontrado")
  else
    try_except
      (doc ← lift (lookup_key (documents w) document_id);
       let chunks := doc_chunks doc in
       chunk_embeddings ← lift (lookup_key (document_embeddings w) document_id);
       '(relevant_chunks, relevance_scores) ←
         lift (find_relevant_chunks chunks chunk_embeddings question 3);
       w1 ← get_world;
       let original_api_key := DEEPSEEK_API_KEY w1 in
       override_key api_key;;
       try_finally
         (query_deepseek net question relevant_chunks)
         (modify (set_DEEPSEEK_API_KEY original_api_key)))
      (fun e => raise (HTTPException 500
                  ("Error al procesar la pregunta: " +:+ str_exn e))).

(** The route [/ask-question/]: the body is validated, then handled. *)
Definition post_ask_question (net : Network) (body : gmap string string)
  : M string :=
  match Question_validate body with
  | Some question_data => ask_question net question_data
  | None => raise (HTTPException 422 "Unprocessable Entity")
  end.

(** [save_settings(settings)] *)
Definition save_settings (settings : gmap string string) : M (string * string) :=
  try_except
    (override_key (settings !! "deepseek_api_key");;
     mret ("success", "Configuraci" +:+ o_acute +:+ "n guardada correctamente"))
    (fun e => raise (HTTPException 500
                ("Error al guardar la configuraci" +:+ o_acute +:+ "n: "
                   +:+ str_exn e))).

(** The requests the server handles, with what the environment decides
    for each. *)
Inductive Request : Type :=
| UploadDocument (document_id filename : string)
                 (saved : result unit) (extracted : result string)
| AskQuestion (net : Network) (body : gmap string string)
| SaveSettings (settings : gmap string string).

(** The state after one request, and after a sequence of them. *)
Definition serve (w : World) (r : Request) : World :=
  match r with
  | UploadDocument document_id filename saved extracted =>
      final_world (upload_document document_id filename saved extracted w)
  | AskQuestion net body => final_world (post_ask_question net body w)
  | SaveSettings settings => final_world (save_settings settings w)
  end.

Definition serve_all (requests : list Request) (w : World) : World :=
  fold_left serve requests w.

End Handlers.

(** Every stored document has its vectors, one per chunk. *)
Definition vectors_aligned (w : World) : Prop :=
  forall id d, documents w !! id = Some d ->
    exists vectors, document_embeddings w !! id = Some vectors
                    /\ length vectors = length (doc_chunks d).

(** The contract of the embedder: one vector per text. *)
Definition one_vector_per_text (encode : list string -> result (list (list float)))
  : Prop :=
  forall texts vectors, encode texts = Ok vectors -> length vectors = length texts.

(** An embedder for examples: every text is mapped to the same unit vector. *)
Definition unit_encode (texts : list string) : result (list (list float)) :=
  Ok (map (fun _ => [1%float; 0%float]) texts).

(** An embedder that raises on every batch. *)
Definition failing_encode (texts : list string) : result (list (list float)) :=
  Raise (Exception "embedding failed").

(** ** The order of a sort, for the proofs *)

(** A specification-level float is ranked by a triple of integers whose
    lexicographic order is numpy's sort order: the class first (negative
    infinity, negative, zero, positive, positive infinity, NaN), then the
    exponent and the mantissa, both negated for negative numbers. *)
Definition sf_rank (x : spec_float) : Z * Z * Z :=
  match x with
  | S754_nan => (3, 0, 0)
  | S754_infinity false => (2, 0, 0)
  | S754_infinity true => (-2, 0, 0)
  | S754_zero _ => (0, 0, 0)
  | S754_finite false m e => (1, e, Z.pos m)
  | S754_finite true m e => (-1, - e, Z.neg m)
  end%Z.

Definition rank (x : float) : Z * Z * Z := sf_rank (Prim2SF x).

Definition lex3 (p q : Z * Z * Z) : Prop :=
  (p.1.1 < q.1.1
   \/ (p.1.1 = q.1.1 /\ (p.1.2 < q.1.2 \/ (p.1.2 = q.1.2 /\ p.2 < q.2))))%Z.

(** The order of the entries of a stable ascending sort: by value, and by
    position among equal values. *)
Definition entry_before (e1 e2 : nat * float) : Prop :=
  NumPy.sort_lt (snd e1) (snd e2) = true
  \/ (NumPy.sort_lt (snd e2) (snd e1) = false /\ fst e1 < fst e2).

(** A float that is a zero of either sign or NaN: what sums and products
    of zeros can be. *)
Definition zero_or_nan (x : float) : Prop :=
  match Prim2SF x with
  | S754_zero _ | S754_nan => True
  | _ => False
  end.

(** The selected entries, index and score together. *)
Definition top_entries (similarities : list float) (top_k : Z) : list (nat * float) :=
  reverse (NumPy.slice_from (- top_k) (NumPy.sorted_entries similarities)).

(** Example data: the tie scenario and a chunk with a zero vector. *)
Definition example_question : list float := [1%float; 0%float].

Definition tie_vectors : list (list float) :=
  [[0; 1]; [1; 0]; [4; 3]; [0; 1]; [4; 3]]%float.

Definition tie_similarities : list float := [0; 1; 4 / 5; 0; 4 / 5]%float.

Definition tie_chunks : list string := ["c0"; "c1"; "c2"; "c3"; "c4"].

Definition degenerate_vectors : list (list float) := [[0; 0]; [1; 0]; [0; 1]]%float.

Definition degenerate_similarities : list float := [nan; 1; 0]%float.

Definition degenerate_chunks : list string := ["c0"; "c1"; "c2"].

(** Example data for the handlers: a stored document, a request body that
    carries a credential of its own, and a successful backend response. *)
Definition stored_world : World :=
  serve unit_encode (initial_world "B")
        (UploadDocument "d1" "notes.txt" (Ok tt) (Ok scenario_text)).

Definition body_with_credential : gmap string string :=
  <["api_key" := "A"]> (<["question" := "What is the title?"]>
                          (<["document_id" := "d1"]> ∅)).

Definition answer_response : Response :=
  {| status_code := 200; text := "{}"; json_content := Ok "The title." |}.

Definition server_error_response : Response :=
  {| status_code := 500; text := "server error";
     json_content := Raise (Exception "Expecting value") |}.

(** The document an upload with no chunk stores. *)
Definition empty_document (document_id filename text : string) : Document :=
  {| doc_filename := filename;
     doc_path := "uploads/" +:+ document_id +:+ "_" +:+ filename;
     doc_text := text;
     doc_chunks := [] |}.

(** A request that is an upload under the identifier [id]. *)
Definition uploads_under (id : string) (r : Request) : Prop :=
  match r with
  | UploadDocument document_id _ _ _ => document_id = id
  | _ => False
  end.

(** ** Further example data *)

(** A short line, a line of 600 characters and another short line. *)
Definition long_line_text : string :=
  "short line" +:+ String PyStr.nl
    (PyStr.replicate 600 "a" +:+ String PyStr.nl "another short line").

(** ** Text extraction *)

Module OsPath.

(** [s.rfind(c)]: the position of the last [c], [None] for [-1]. *)
Fixpoint rfind (c : ascii) (s : string) : option nat :=
  match s with
  | EmptyString => None
  | String d s' =>
      match rfind c s' with
      | Some i => Some (S i)
      | None => if Ascii.eqb d c then Some 0 else None
      end
  end.

(** [s[:n]] and [s[n:]] for a position [n]. *)
Fixpoint take (n : nat) (s : string) : string :=
  match n, s with
  | S n', String c s' => String c (take n' s')
  | _, _ => EmptyString
  end.

Fixpoint drop (n : nat) (s : string) : string :=
  match n, s with
  | S n', String _ s' => drop n' s'
  | _, _ => s
  end.

(** Whether some character of [s] is not a period. *)
Fixpoint has_non_dot (s : string) : bool :=
  match s with
  | EmptyString => false
  | String c s' => negb (Ascii.eqb c ".") || has_non_dot s'
  end.

(** [os.path.splitext] on a POSIX path: the extension starts at the last
    period of the last component, unless that component has only periods
    before it. *)
Definition splitext (p : string) : string * string :=
  match rfind "." p with
  | None => (p, EmptyString)
  | Some dotIndex =>
      let filenameIndex :=
        match rfind "/" p with
        | Some sepIndex => S sepIndex
        | None => 0
        end in
      if (filenameIndex <=? dotIndex)
         && has_non_dot (take (dotIndex - filenameIndex) (drop filenameIndex p))
      then (take dotIndex p, drop dotIndex p)
      else (p, EmptyString)
  end.

(** [c.lower()] for one code point below 256: the ASCII capitals and the
    Latin-1 capitals, the multiplication sign excepted. *)
Definition lower_char (c : ascii) : ascii :=
  let n := N_of_ascii c in
  if ((65 <=? n) && (n <=? 90)
      || (192 <=? n) && (n <=? 222) && negb (n =? 215))%N
  then ascii_of_N (n + 32) else c.

(** [s.lower()] *)
Fixpoint lower (s : string) : string :=
  match s with
  | EmptyString => EmptyString
  | String c s' => String (lower_char c) (lower s')
  end.

End OsPath.

(** What the file readers make of a stored file: the texts of the pages
    [PdfReader] finds, the texts of the paragraphs [docx.Document] finds,
    and what [open(...).read()] returns, each of which may raise. *)
Record StoredFile : Type := {
  pdf_pages : result (list string);
  docx_paragraphs : result (list string);
  plain_text : result string
}.

(** The loop [for page in pdf.pages: text += page.extract_text() + "\n"]. *)
Definition pdf_text (pages : list string) : string :=
  fold_left (fun text page => text +:+ (page +:+ newline)) pages EmptyString.

(** [extract_text(file_path)], for the file that is stored there. *)
Definition extract_text (file_path : string) (file : StoredFile) : result string :=
  let extension := snd (OsPath.splitext file_path) in
  if String.eqb (OsPath.lower extension) ".pdf" then
    pages ← pdf_pages file; Ok (pdf_text pages)
  else if String.eqb (OsPath.lower extension) ".docx" then
    paragraphs ← docx_paragraphs file; Ok (PyStr.join newline paragraphs)
  else if existsb (String.eqb (OsPath.lower extension)) [".txt"; ".csv"; ".md"] then
    plain_text file
  else
    Raise (Exception ("Formato de archivo no soportado: " +:+ extension)).

(** [upload_document] with [extract_text] run on the path the upload is
    written to. *)
Definition upload_stored_file (encode : list string -> result (list (list float)))
           (document_id filename : string) (saved : result unit)
           (file : StoredFile) : M (string * string) :=
  upload_document encode document_id filename saved
    (extract_text ("uploads/" +:+ document_id +:+ "_" +:+ filename) file).

(** A file for examples: a PDF of two pages. *)
Definition two_page_pdf : StoredFile :=
  {| pdf_pages := Ok ["First page line"; "Second page line"];
     docx_paragraphs := Raise (Exception "File is not a zip file");
     plain_text := Ok "%PDF-1.4" |}.

(** What holds of every stored document. *)
Definition well_stored (w : World) : Prop :=
  dom (documents w) = dom (document_embeddings w)
  /\ forall id d, documents w !! id = Some d ->
       doc_chunks d = split_chunks (doc_text d)
       /\ doc_path d = "uploads/" +:+ id +:+ "_" +:+ doc_filename d.

(** * Properties *)

(** ** Strings *)

Module PyStrFacts.
Import PyStr.

Lemma length_append (s t : string) :
  String.length (s +:+ t) = String.length s + String.length t.
Proof. induction s as [|c s IH]; simpl; [reflexivity | now rewrite IH]. Qed.

Lemma length_lstrip (s : string) : String.length (lstrip s) <= String.length s.
Proof.
  induction s as [|c s IH]; simpl; [lia|].
  destruct (isspace c); simpl; lia.
Qed.

Lemma length_rstrip (s : string) : String.length (rstrip s) <= String.length s.
Proof.
  induction s as [|c s IH]; simpl; [lia|].
  destruct (rstrip s) as [|d r]; [destruct (isspace c)|]; simpl in *; lia.
Qed.

Lemma length_strip (s : string) : String.length (strip s) <= String.length s.
Proof.
  unfold strip.
  etransitivity; [apply length_rstrip | apply length_lstrip].
Qed.

End PyStrFacts.

(** ** The chunker *)

Section ChunkerFacts.

Let keep (seg : string) : bool := 5 <=? String.length (PyStr.strip seg).

Lemma close_buffer_truthy (chunks : list string) (buffer : string) :
  (if PyStr.truthy buffer then chunks ++ [PyStr.strip buffer] else chunks)
  = chunks ++ close_buffer buffer.
Proof.
  unfold close_buffer. destruct (PyStr.truthy buffer); [reflexivity|].
  now rewrite app_nil_r.
Qed.

(** The loop of [process_document], started in any state, emits what the
    accumulation emits from the surviving segments. *)
Lemma chunk_loop_accumulate (paragraphs : list string) (st : chunker_state) :
  fst (fold_left chunk_step paragraphs st)
    ++ close_buffer (snd (fold_left chunk_step paragraphs st))
  = fst st ++ accumulate overflows_sum (snd st) (List.filter keep paragraphs).
Proof.
  revert st. induction paragraphs as [|p ps IH]; intros [chunks current]; simpl.
  - reflexivity.
  - rewrite IH. unfold keep at 2, chunk_step.
    destruct (Nat.ltb_spec (String.length (PyStr.strip p)) 5) as [Hshort|Hlong].
    + replace (5 <=? String.length (PyStr.strip p)) with false
        by (symmetry; apply Nat.leb_gt; exact Hshort).
      reflexivity.
    + replace (5 <=? String.length (PyStr.strip p)) with true
        by (symmetry; apply Nat.leb_le; exact Hlong).
      simpl. unfold overflows_sum at 2.
      destruct (500 <? String.length current + String.length p); simpl.
      * rewrite close_buffer_truthy. now rewrite <- app_assoc.
      * reflexivity.
Qed.

Lemma split_chunks_accumulate (text : string) :
  split_chunks text = chunk_reference_sum text.
Proof.
  unfold split_chunks, chunk_reference_sum, kept_segments.
  pose proof (chunk_loop_accumulate (PyStr.split PyStr.nl text) ([], EmptyString)) as H.
  destruct (fold_left chunk_step (PyStr.split PyStr.nl text) ([], EmptyString))
    as [chunks current].
  simpl in H. rewrite close_buffer_truthy. exact H.
Qed.

Lemma join_segments_snoc (current : list string) (seg : string) :
  join_segments (current ++ [seg]) = append_segment (join_segments current) seg.
Proof. unfold join_segments. now rewrite fold_left_app. Qed.

Lemma accumulate_groups (segs current : list string) :
  accumulate overflows_sum (join_segments current) segs
  = map (fun g => PyStr.strip (join_segments g)) (segment_groups current segs).
Proof.
  revert current. induction segs as [|seg rest IH]; intros current; simpl.
  - unfold close_buffer. now destruct (PyStr.truthy (join_segments current)).
  - destruct (overflows_sum (join_segments current) seg).
    + rewrite map_app. f_equal.
      * unfold close_buffer. now destruct (PyStr.truthy (join_segments current)).
      * apply (IH [seg]).
    + rewrite <- join_segments_snoc. apply IH.
Qed.

Lemma length_append_segment (buffer seg : string) :
  String.length (append_segment buffer seg)
  <= String.length buffer + String.length seg + 1.
Proof.
  unfold append_segment. destruct (PyStr.truthy buffer).
  - rewrite !PyStrFacts.length_append. simpl. lia.
  - lia.
Qed.

Lemma segment_groups_bound (segs current : list string) :
  (2 <= length current -> String.length (join_segments current) <= 501) ->
  forall g, In g (segment_groups current segs) -> 2 <= length g ->
            String.length (join_segments g) <= 501.
Proof.
  revert current. induction segs as [|seg rest IH]; intros current Hcur g; simpl.
  - destruct (PyStr.truthy (join_segments current)); simpl; [|tauto].
    intros [<-|[]]. exact Hcur.
  - destruct (overflows_sum (join_segments current) seg) eqn:Hov.
    + rewrite in_app_iff. intros [Hg|Hg].
      * destruct (PyStr.truthy (join_segments current)); simpl in Hg; [|tauto].
        destruct Hg as [<-|[]]. exact Hcur.
      * apply (IH [seg]); [simpl; lia | exact Hg].
    + apply IH. intros _. rewrite join_segments_snoc.
      unfold overflows_sum in Hov. apply Nat.ltb_ge in Hov.
      pose proof (length_append_segment (join_segments current) seg). lia.
Qed.

End ChunkerFacts.

(** C6, as it holds of the code: the chunker is the accumulation algorithm
    in which a buffer is closed when the length of the buffer plus the
    length of the next segment exceeds 500, the separating space not being
    counted; and the scenario text yields the single expected chunk. *)
Theorem split_chunks_is_accumulation :
  (forall text, split_chunks text = chunk_reference_sum text)
  /\ split_chunks scenario_text
     = ["Title Paragraph one text here. Paragraph two text here."].
Proof.
  split; [apply split_chunks_accumulate | reflexivity].
Qed.

(** C6 as stated fails: with two lines of 250 characters, appending the
    second line makes the buffer 501 characters long, so the reference
    algorithm closes the buffer and emits two chunks, while the code emits
    one chunk of 501 characters. *)
Lemma split_chunks_differs_at_boundary :
  split_chunks boundary_text <> chunk_reference boundary_text.
Proof.
  intros H.
  apply (f_equal (@length string)) in H.
  vm_compute in H. discriminate H.
Qed.

(** C10: every chunk is the stripped join of a group of segments; a chunk
    whose group has two or more segments is at most 501 characters long;
    and 501 is reached by two lines of 250 characters. *)
Theorem chunk_length_at_most_501 :
  (forall text,
      split_chunks text
      = map (fun g => PyStr.strip (join_segments g))
            (segment_groups [] (kept_segments text)))
  /\ (forall text g,
         In g (segment_groups [] (kept_segments text)) ->
         2 <= length g ->
         String.length (PyStr.strip (join_segments g)) <= 501)
  /\ (segment_groups [] (kept_segments boundary_text)
      = [[PyStr.replicate 250 "a"; PyStr.replicate 250 "b"]]
      /\ map String.length (split_chunks boundary_text) = [501]).
Proof.
  split; [|split; [|split]].
  - intros text. rewrite split_chunks_accumulate.
    apply (accumulate_groups (kept_segments text) []).
  - intros text g Hg Hlen.
    etransitivity; [apply PyStrFacts.length_strip|].
    apply (segment_groups_bound (kept_segments text) []); [simpl; lia | exact Hg | exact Hlen].
  - vm_compute. reflexivity.
  - vm_compute. reflexivity.
Qed.

(** ** Floating-point order *)

Module FloatFacts.

Lemma is_nan_spec (a : float) :
  PrimFloat.is_nan a = true <-> Prim2SF a = S754_nan.
Proof.
  unfold PrimFloat.is_nan. rewrite FloatAxioms.eqb_spec. unfold SFeqb.
  destruct (Prim2SF a) as [s|s| |s m e]; simpl.
  - split; discriminate.
  - destruct s; split; discriminate.
  - split; reflexivity.
  - rewrite Z.compare_refl.
    assert (PosDef.Pos.compare_cont Eq m m = Eq) as ->.
    { change (Pos.compare m m = Eq). apply Pos.compare_refl. }
    destruct s; split; discriminate.
Qed.

Lemma not_nan_spec (a : float) :
  PrimFloat.is_nan a = false <-> Prim2SF a <> S754_nan.
Proof.
  rewrite <- is_nan_spec. destruct (PrimFloat.is_nan a); split; congruence.
Qed.

Ltac order_cases :=
  try (split; [discriminate | unfold lex3; simpl; lia]);
  try (split; [unfold lex3; simpl; lia | reflexivity]);
  try (split; [reflexivity | unfold lex3; simpl; lia]).

Lemma sort_lt_rank (a b : float) :
  NumPy.sort_lt a b = true <-> lex3 (rank a) (rank b).
Proof.
  unfold NumPy.sort_lt, rank.
  destruct (PrimFloat.is_nan a) eqn:Ha.
  { apply is_nan_spec in Ha. rewrite Ha.
    destruct (Prim2SF b) as [s|[]| |[] m e]; order_cases. }
  apply not_nan_spec in Ha.
  destruct (PrimFloat.is_nan b) eqn:Hb.
  { apply is_nan_spec in Hb. rewrite Hb.
    destruct (Prim2SF a) as [s|[]| |[] m e]; order_cases; congruence. }
  apply not_nan_spec in Hb.
  rewrite FloatAxioms.ltb_spec. unfold SFltb.
  destruct (Prim2SF a) as [s1|[]| |[] m1 e1]; try congruence;
    destruct (Prim2SF b) as [s2|[]| |[] m2 e2]; try congruence; simpl;
    order_cases;
    try (destruct s1; order_cases);
    try (destruct s2; order_cases).
  all: destruct (Z.compare_spec e1 e2) as [He|He|He]; order_cases.
  all: change (PosDef.Pos.compare_cont Eq m1 m2) with (Pos.compare m1 m2);
    destruct (Pos.compare_spec m1 m2) as [Hm|Hm|Hm]; simpl; order_cases.
Qed.

Lemma sort_lt_rank_false (a b : float) :
  NumPy.sort_lt a b = false <-> ~ lex3 (rank a) (rank b).
Proof.
  rewrite <- sort_lt_rank. destruct (NumPy.sort_lt a b); split; congruence.
Qed.



(** [a < b] on floats implies [a] sorts before [b]. *)
Lemma ltb_sort_lt (a b : float) :
  PrimFloat.ltb a b = true -> NumPy.sort_lt a b = true.
Proof.
  intros H. unfold NumPy.sort_lt.
  rewrite FloatAxioms.ltb_spec in H. unfold SFltb in H.
  destruct (PrimFloat.is_nan a) eqn:Ha.
  { apply is_nan_spec in Ha. rewrite Ha in H. discriminate. }
  destruct (PrimFloat.is_nan b) eqn:Hb; [reflexivity|].
  rewrite FloatAxioms.ltb_spec. exact H.
Qed.

(** Floats that compare equal have the same rank and are numbers. *)
Lemma eqb_rank (a b : float) :
  PrimFloat.eqb a b = true -> rank a = rank b /\ PrimFloat.is_nan a = false.
Proof.
  intros H. rewrite FloatAxioms.eqb_spec in H. unfold SFeqb in H.
  rewrite not_nan_spec. unfold rank.
  destruct (Prim2SF a) as [s1|[]| |[] m1 e1];
    destruct (Prim2SF b) as [s2|[]| |[] m2 e2]; simpl in H;
    try discriminate; try (split; [reflexivity | discriminate]);
    try (destruct s1; discriminate); try (destruct s2; discriminate).
  all: destruct (Z.compare_spec e1 e2) as [He|He|He]; try discriminate.
  all: change (PosDef.Pos.compare_cont Eq m1 m2) with (Pos.compare m1 m2) in H;
    destruct (Pos.compare_spec m1 m2) as [Hm|Hm|Hm]; try discriminate.
  all: subst; split; [reflexivity | discriminate].
Qed.

Lemma entry_before_trans (e1 e2 e3 : nat * float) :
  entry_before e1 e2 -> entry_before e2 e3 -> entry_before e1 e3.
Proof.
  unfold entry_before.
  rewrite !sort_lt_rank, !sort_lt_rank_false. unfold lex3.
  destruct (rank (snd e1)) as [[a1 a2] a3].
  destruct (rank (snd e2)) as [[b1 b2] b3].
  destruct (rank (snd e3)) as [[c1 c2] c3]. simpl. lia.
Qed.


End FloatFacts.

(** ** The sort behind [np.argsort] *)

Module SortFacts.
Import NumPy.

Lemma insert_entry_perm (e : nat * float) (run : list (nat * float)) :
  insert_entry e run ≡ₚ e :: run.
Proof.
  induction run as [|e' rest IH]; simpl; [reflexivity|].
  destruct (sort_lt (snd e) (snd e')); [reflexivity|].
  rewrite IH. apply Permutation_swap.
Qed.

Lemma fold_insert_perm (entries run : list (nat * float)) :
  fold_left (fun run e => insert_entry e run) entries run ≡ₚ entries ++ run.
Proof.
  revert run. induction entries as [|e rest IH]; intros run; simpl; [reflexivity|].
  rewrite IH, insert_entry_perm. symmetry. apply Permutation_middle.
Qed.

Lemma sorted_entries_perm (a : list float) : sorted_entries a ≡ₚ enumerate a.
Proof. unfold sorted_entries. now rewrite fold_insert_perm, app_nil_r. Qed.

Lemma insert_entry_sorted (e : nat * float) (run : list (nat * float)) :
  StronglySorted entry_before run ->
  (forall e', e' ∈ run -> fst e' < fst e) ->
  StronglySorted entry_before (insert_entry e run).
Proof.
  induction run as [|e' rest IH]; intros Hs Hlt; simpl.
  - repeat constructor.
  - apply StronglySorted_inv in Hs as [Hrest Hall].
    destruct (sort_lt (snd e) (snd e')) eqn:Hcmp.
    + constructor; [constructor; assumption|].
      constructor; [left; exact Hcmp|].
      rewrite Forall_forall in Hall |- *. intros x Hx.
      apply FloatFacts.entry_before_trans with e'; [left; exact Hcmp | auto].
    + constructor.
      * apply IH; [exact Hrest|]. intros x Hx. apply Hlt. now right.
      * rewrite Forall_forall in Hall |- *. intros x Hx.
        rewrite insert_entry_perm in Hx.
        apply elem_of_cons in Hx as [->|Hx].
        -- right. split; [exact Hcmp | apply Hlt; now left].
        -- apply Hall. exact Hx.
Qed.

Lemma fold_insert_sorted (l : list float) (n : nat) (run : list (nat * float)) :
  StronglySorted entry_before run ->
  (forall e', e' ∈ run -> fst e' < n) ->
  StronglySorted entry_before
    (fold_left (fun run e => insert_entry e run) (combine (seq n (length l)) l) run).
Proof.
  revert n run. induction l as [|x l IH]; intros n run Hs Hlt; simpl; [exact Hs|].
  apply IH.
  - apply insert_entry_sorted; [exact Hs | exact Hlt].
  - intros e' He'. rewrite insert_entry_perm in He'.
    apply elem_of_cons in He' as [->|He']; simpl; [lia|].
    specialize (Hlt e' He'). lia.
Qed.

Lemma sorted_entries_sorted (a : list float) :
  StronglySorted entry_before (sorted_entries a).
Proof.
  unfold sorted_entries, enumerate. apply fold_insert_sorted; [constructor|].
  intros e' He'. inversion He'.
Qed.

Lemma combine_seq_lookup (l : list float) (n i : nat) (e : nat * float) :
  combine (seq n (length l)) l !! i = Some e <-> exists s, e = (n + i, s) /\ l !! i = Some s.
Proof.
  revert n i. induction l as [|x l IH]; intros n i; simpl.
  - split; [discriminate | intros (s & _ & H); discriminate].
  - destruct i as [|i]; simpl.
    + rewrite Nat.add_0_r. split.
      * intros [= <-]. eauto.
      * intros (s & -> & [= <-]). reflexivity.
    + rewrite IH. replace (S n + i) with (n + S i) by lia. reflexivity.
Qed.

Lemma elem_of_enumerate (a : list float) (i : nat) (s : float) :
  (i, s) ∈ enumerate a <-> a !! i = Some s.
Proof.
  unfold enumerate. rewrite list_elem_of_lookup. split.
  - intros (p & Hp). apply combine_seq_lookup in Hp as (s' & [= -> ->] & Hs). exact Hs.
  - intros Hs. exists i. apply combine_seq_lookup. eauto.
Qed.

Lemma elem_of_sorted_entries (a : list float) (i : nat) (s : float) :
  (i, s) ∈ sorted_entries a <-> a !! i = Some s.
Proof. now rewrite sorted_entries_perm, elem_of_enumerate. Qed.

Lemma length_sorted_entries (a : list float) : length (sorted_entries a) = length a.
Proof.
  rewrite (Permutation_length (sorted_entries_perm a)).
  unfold enumerate. rewrite length_combine, length_seq. lia.
Qed.

Lemma StronglySorted_lookup {A : Type} (R : A -> A -> Prop) (l : list A) :
  StronglySorted R l ->
  forall p q x y, p < q -> l !! p = Some x -> l !! q = Some y -> R x y.
Proof.
  induction 1 as [|a l Hs IH Hall]; intros p q x y Hpq Hp Hq.
  - discriminate.
  - destruct q as [|q]; [lia|]. simpl in Hq.
    destruct p as [|p]; simpl in Hp.
    + injection Hp as <-. rewrite Forall_forall in Hall. apply Hall.
      eapply list_elem_of_lookup_2. exact Hq.
    + apply (IH p q); [lia | exact Hp | exact Hq].
Qed.

End SortFacts.

(** ** The retriever *)

Module ZeroFacts.

Lemma eqb_zero (x : float) :
  PrimFloat.eqb x 0%float = true -> exists s, Prim2SF x = S754_zero s.
Proof.
  rewrite FloatAxioms.eqb_spec. unfold SFeqb.
  change (Prim2SF 0%float) with (S754_zero false).
  destruct (Prim2SF x) as [s|[]| |[] m e]; simpl; try discriminate. eauto.
Qed.

Lemma zero_or_nan_zero : zero_or_nan 0%float.
Proof. exact I. Qed.

Lemma zero_or_nan_mul_l (x y : float) :
  zero_or_nan x -> zero_or_nan (x * y)%float.
Proof.
  unfold zero_or_nan. rewrite FloatAxioms.mul_spec.
  destruct (Prim2SF x) as [s| | |]; try contradiction; intros _;
    destruct (Prim2SF y) as [s'|s'| |s' m e]; simpl; exact I.
Qed.

Lemma zero_or_nan_mul_r (x y : float) :
  zero_or_nan y -> zero_or_nan (x * y)%float.
Proof.
  unfold zero_or_nan. rewrite FloatAxioms.mul_spec.
  destruct (Prim2SF y) as [s| | |]; try contradiction; intros _;
    destruct (Prim2SF x) as [s'|s'| |s' m e]; simpl; exact I.
Qed.

Lemma zero_or_nan_add (x y : float) :
  zero_or_nan x -> zero_or_nan y -> zero_or_nan (x + y)%float.
Proof.
  unfold zero_or_nan. rewrite FloatAxioms.add_spec.
  destruct (Prim2SF x) as [[]| | |]; try contradiction; intros _;
    destruct (Prim2SF y) as [[]| | |]; try contradiction; intros _;
    simpl; exact I.
Qed.

Lemma zero_or_nan_sqrt (x : float) :
  zero_or_nan x -> zero_or_nan (PrimFloat.sqrt x).
Proof.
  unfold zero_or_nan. rewrite FloatAxioms.sqrt_spec.
  destruct (Prim2SF x) as [s| | |]; try contradiction; intros _; simpl; exact I.
Qed.

Lemma zero_or_nan_div (x y : float) :
  zero_or_nan x -> zero_or_nan y -> PrimFloat.is_nan (x / y)%float = true.
Proof.
  unfold zero_or_nan. rewrite FloatFacts.is_nan_spec, FloatAxioms.div_spec.
  destruct (Prim2SF x) as [s| | |]; try contradiction; intros _;
    destruct (Prim2SF y) as [s'| | |]; try contradiction; intros _; reflexivity.
Qed.

Lemma zero_vector_head (x : float) (v : list float) :
  zero_vector (x :: v) -> zero_or_nan x /\ zero_vector v.
Proof.
  intros H. apply Forall_cons in H as [Hx Hv]. split; [|exact Hv].
  apply eqb_zero in Hx as [s Hs]. unfold zero_or_nan. now rewrite Hs.
Qed.

Lemma dot_fold_zero (u v : list float) (acc : float) :
  zero_or_nan acc -> zero_vector u \/ zero_vector v ->
  zero_or_nan (fold_left (fun acc xy => (acc + fst xy * snd xy)%float)
                         (combine u v) acc).
Proof.
  revert v acc. induction u as [|x u IH]; intros v acc Hacc Hz; simpl; [exact Hacc|].
  destruct v as [|y v]; simpl; [exact Hacc|].
  apply IH.
  - apply zero_or_nan_add; [exact Hacc|].
    destruct Hz as [Hz|Hz]; apply zero_vector_head in Hz as [H0 _].
    + now apply zero_or_nan_mul_l.
    + now apply zero_or_nan_mul_r.
  - destruct Hz as [Hz|Hz]; apply zero_vector_head in Hz as [_ Hz]; auto.
Qed.

Lemma dot_zero (u v : list float) :
  zero_vector u \/ zero_vector v -> zero_or_nan (NumPy.dot u v).
Proof. apply dot_fold_zero. exact zero_or_nan_zero. Qed.

Lemma norm_zero (v : list float) : zero_vector v -> zero_or_nan (NumPy.norm v).
Proof.
  intros H. apply zero_or_nan_sqrt. apply dot_zero. now left.
Qed.

(** The cosine similarity with a zero vector on either side is NaN. *)
Lemma cosine_zero_nan (row q : list float) :
  zero_vector row \/ zero_vector q ->
  PrimFloat.is_nan
    (NumPy.dot row q / (NumPy.norm row * NumPy.norm q))%float = true.
Proof.
  intros H. apply zero_or_nan_div; [now apply dot_zero|].
  destruct H as [H|H].
  - apply zero_or_nan_mul_l. now apply norm_zero.
  - apply zero_or_nan_mul_r. now apply norm_zero.
Qed.

End ZeroFacts.

Module RetrieveFacts.
Import NumPy.

Lemma sort_lt_asym (a b : float) : sort_lt a b = true -> sort_lt b a = false.
Proof.
  rewrite FloatFacts.sort_lt_rank, FloatFacts.sort_lt_rank_false. unfold lex3.
  destruct (rank a) as [[a1 a2] a3], (rank b) as [[b1 b2] b3]. simpl. lia.
Qed.

Lemma sort_lt_nan_r (a b : float) :
  PrimFloat.is_nan a = false -> PrimFloat.is_nan b = true -> sort_lt a b = true.
Proof. intros Ha Hb. unfold sort_lt. now rewrite Ha, Hb. Qed.

Lemma sort_lt_nan_l (a b : float) :
  PrimFloat.is_nan a = true -> sort_lt a b = false.
Proof. intros Ha. unfold sort_lt. now rewrite Ha. Qed.

Lemma slice_from_fmap {A B : Type} (f : A -> B) (start : Z) (l : list A) :
  slice_from start (f <$> l) = f <$> slice_from start l.
Proof. unfold slice_from. now rewrite length_fmap, fmap_drop. Qed.

Lemma top_indices_entries (similarities : list float) (top_k : Z) :
  top_indices similarities top_k = fst <$> top_entries similarities top_k.
Proof.
  unfold top_indices, top_entries, argsort.
  change (map fst (sorted_entries similarities))
    with (fst <$> sorted_entries similarities).
  now rewrite slice_from_fmap, fmap_reverse.
Qed.

(** The selection is the reversal of a suffix of the sorted entries, and
    for a positive [top_k] the suffix has [min top_k n] entries. *)
Lemma top_entries_suffix (similarities : list float) (top_k : Z) :
  exists n, top_entries similarities top_k
            = reverse (drop n (sorted_entries similarities))
            /\ ((1 <= top_k)%Z ->
                Z.of_nat (length similarities - n)
                = Z.min top_k (Z.of_nat (length similarities))).
Proof.
  unfold top_entries, slice_from. eexists. split; [reflexivity|].
  intros Hk. rewrite SortFacts.length_sorted_entries.
  destruct (Z.ltb_spec (- top_k) 0); lia.
Qed.

Section Suffix.
Context {A : Type} (S : list A) (n : nat).

Lemma suffix_lookup_1 (p : nat) (e : A) :
  reverse (drop n S) !! p = Some e ->
  p < length S - n /\ S !! (length S - Datatypes.S p) = Some e.
Proof.
  intros H. pose proof (lookup_lt_Some _ _ _ H) as Hp.
  rewrite length_reverse, length_drop in Hp. split; [exact Hp|].
  rewrite reverse_lookup in H by (rewrite length_drop; exact Hp).
  rewrite lookup_drop, length_drop in H.
  replace (length S - Datatypes.S p) with (n + (length S - n - Datatypes.S p)) by lia.
  exact H.
Qed.

Lemma suffix_lookup_2 (b : nat) (e : A) :
  n <= b -> S !! b = Some e ->
  reverse (drop n S) !! (length S - Datatypes.S b) = Some e.
Proof.
  intros Hn H. pose proof (lookup_lt_Some _ _ _ H) as Hb.
  rewrite reverse_lookup by (rewrite length_drop; lia).
  rewrite lookup_drop, length_drop.
  replace (n + (length S - n - Datatypes.S (length S - Datatypes.S b))) with b by lia.
  exact H.
Qed.
End Suffix.

Lemma top_entries_order (similarities : list float) (top_k : Z)
      (p q : nat) (e1 e2 : nat * float) :
  p < q ->
  top_entries similarities top_k !! p = Some e1 ->
  top_entries similarities top_k !! q = Some e2 ->
  entry_before e2 e1.
Proof.
  destruct (top_entries_suffix similarities top_k) as (n & -> & _).
  intros Hpq Hp Hq.
  apply suffix_lookup_1 in Hp as [Hp1 Hp2].
  apply suffix_lookup_1 in Hq as [Hq1 Hq2].
  eapply (SortFacts.StronglySorted_lookup _ _ (SortFacts.sorted_entries_sorted similarities));
    [|exact Hq2|exact Hp2].
  lia.
Qed.

Lemma top_entries_score (similarities : list float) (top_k : Z)
      (p i : nat) (s : float) :
  top_entries similarities top_k !! p = Some (i, s) ->
  similarities !! i = Some s.
Proof.
  destruct (top_entries_suffix similarities top_k) as (n & -> & _).
  intros Hp. apply suffix_lookup_1 in Hp as [_ Hp].
  apply SortFacts.elem_of_sorted_entries. eapply list_elem_of_lookup_2. exact Hp.
Qed.

Lemma top_indices_lookup (similarities : list float) (top_k : Z) (p i : nat) :
  top_indices similarities top_k !! p = Some i ->
  exists s, top_entries similarities top_k !! p = Some (i, s)
            /\ similarities !! i = Some s
            /\ score_at similarities i = s.
Proof.
  rewrite top_indices_entries, list_lookup_fmap.
  destruct (top_entries similarities top_k !! p) as [[i' s]|] eqn:He; [|discriminate].
  intros [= <-]. exists s. split; [reflexivity|].
  pose proof (top_entries_score _ _ _ _ _ He) as Hs. split; [exact Hs|].
  unfold score_at. now rewrite nth_lookup, Hs.
Qed.

Lemma top_indices_in_range (similarities : list float) (top_k : Z) :
  Forall (fun i => i < length similarities) (top_indices similarities top_k).
Proof.
  apply Forall_forall. intros i Hi.
  apply list_elem_of_lookup in Hi as [p Hp].
  apply top_indices_lookup in Hp as (s & _ & Hs & _).
  eapply lookup_lt_Some. exact Hs.
Qed.

Lemma length_top_indices (similarities : list float) (top_k : Z) :
  (1 <= top_k)%Z ->
  Z.of_nat (length (top_indices similarities top_k))
  = Z.min top_k (Z.of_nat (length similarities)).
Proof.
  intros Hk. rewrite top_indices_entries, length_fmap.
  destruct (top_entries_suffix similarities top_k) as (n & -> & Hn).
  rewrite length_reverse, length_drop, SortFacts.length_sorted_entries. auto.
Qed.

Lemma top_non_increasing (similarities : list float) (top_k : Z) :
  non_increasing similarities (top_indices similarities top_k).
Proof.
  intros p q i j Hpq Hp Hq.
  apply top_indices_lookup in Hp as (si & Hp & _ & ->).
  apply top_indices_lookup in Hq as (sj & Hq & _ & ->).
  pose proof (top_entries_order _ _ _ _ _ _ Hpq Hp Hq) as Hord.
  destruct (PrimFloat.ltb si sj) eqn:Hlt; [|reflexivity].
  apply FloatFacts.ltb_sort_lt in Hlt.
  destruct Hord as [Hord|[Hord _]]; simpl in Hord.
  - apply sort_lt_asym in Hord. congruence.
  - congruence.
Qed.

Lemma top_ties_higher_index_first (similarities : list float) (top_k : Z) :
  ties_higher_index_first similarities (top_indices similarities top_k).
Proof.
  intros p q i j Hpq Hp Hq.
  apply top_indices_lookup in Hp as (si & Hp & _ & ->).
  apply top_indices_lookup in Hq as (sj & Hq & _ & ->).
  pose proof (top_entries_order _ _ _ _ _ _ Hpq Hp Hq) as Hord.
  intros Heq. apply FloatFacts.eqb_rank in Heq as [Heq _].
  destruct Hord as [Hord|[_ Hord]]; simpl in Hord; [|exact Hord].
  apply FloatFacts.sort_lt_rank in Hord. rewrite Heq in Hord.
  unfold lex3 in Hord. lia.
Qed.

Lemma top_undefined_ranked_first (similarities : list float) (top_k : Z) :
  undefined_ranked_first similarities (top_indices similarities top_k).
Proof.
  intros i j q Hnan Hi Hnum Hq.
  apply top_indices_lookup in Hq as (sj & Hq & _ & Hsj). rewrite Hsj in Hnum.
  destruct (lookup_lt_is_Some_2 similarities i Hi) as [si Hsi].
  assert (score_at similarities i = si) as Hsc
      by (unfold score_at; now rewrite nth_lookup, Hsi).
  rewrite Hsc in Hnan.
  assert ((i, si) ∈ sorted_entries similarities) as Hin
      by now apply SortFacts.elem_of_sorted_entries.
  apply list_elem_of_lookup in Hin as [b Hb].
  pose proof (lookup_lt_Some _ _ _ Hb) as Hblt.
  rewrite top_indices_entries.
  destruct (top_entries_suffix similarities top_k) as (n & Htop & _).
  rewrite Htop in Hq |- *.
  apply suffix_lookup_1 in Hq as [Hq1 Hq2].
  set (a := length (sorted_entries similarities) - Datatypes.S q) in *.
  destruct (Nat.lt_trichotomy b a) as [Hlt|[Heq|Hgt]].
  - exfalso.
    pose proof (SortFacts.StronglySorted_lookup _ _
                  (SortFacts.sorted_entries_sorted similarities)
                  _ _ _ _ Hlt Hb Hq2) as [Hord|[Hord _]]; simpl in Hord.
    + rewrite sort_lt_nan_l in Hord by exact Hnan. discriminate.
    + rewrite sort_lt_nan_r in Hord by assumption. discriminate.
  - exfalso. subst b. rewrite Hb in Hq2. injection Hq2 as _ Heq. congruence.
  - exists (length (sorted_entries similarities) - Datatypes.S b). split.
    + unfold a in Hgt. lia.
    + rewrite list_lookup_fmap.
      rewrite (suffix_lookup_2 _ n b (i, si)); [reflexivity| |exact Hb].
      unfold a in Hgt. lia.
Qed.

Lemma traverse_getitem {A : Type} (l : list A) (d : A) (idxs : list nat) :
  Forall (fun i => i < length l) idxs ->
  traverse (getitem l) idxs = Ok (map (fun i => nth i l d) idxs).
Proof.
  induction 1 as [|i idxs Hi _ IH]; simpl; [reflexivity|].
  destruct (lookup_lt_is_Some_2 l i Hi) as [x Hx].
  assert (getitem l i = Ok x) as -> by (unfold getitem; now rewrite Hx).
  simpl. rewrite IH. simpl.
  now rewrite nth_lookup, Hx.
Qed.

Lemma cosine_similarities_aligned (rows : list (list float)) (q : list float) :
  aligned rows q = true ->
  exists similarities,
    cosine_similarities rows q = Ok similarities
    /\ length similarities = length rows
    /\ forall i row, rows !! i = Some row ->
         score_at similarities i
         = (dot row q / (norm row * norm q))%float.
Proof.
  intros Hal. unfold cosine_similarities. rewrite Hal.
  eexists. split; [reflexivity|]. split; [apply length_map|].
  intros i row Hrow. unfold score_at.
  change (map ?f rows) with (f <$> rows).
  now rewrite nth_lookup, list_lookup_fmap, Hrow.
Qed.

(** With aligned inputs the retriever raises nothing. *)
Lemma retrieve_aligned (q : list float) (rows : list (list float))
      (chunks : list string) (top_k : Z) (similarities : list float) :
  cosine_similarities rows q = Ok similarities ->
  length similarities = length rows ->
  length chunks = length rows ->
  retrieve q rows chunks top_k
  = Ok (map (fun i => nth i chunks EmptyString) (top_indices similarities top_k),
        map (score_at similarities) (top_indices similarities top_k)).
Proof.
  intros Hcos Hlen Hchunks. unfold retrieve. rewrite Hcos. simpl.
  pose proof (top_indices_in_range similarities top_k) as Hrange.
  rewrite (traverse_getitem chunks EmptyString)
    by (rewrite Hchunks, <- Hlen; exact Hrange).
  simpl. rewrite (traverse_getitem similarities nan) by exact Hrange.
  reflexivity.
Qed.

End RetrieveFacts.

(** ** The retriever under any sort numpy may run *)

Section ContractFacts.
Variable argsort : list float -> list nat.
Hypothesis sorts : argsort_contract argsort.

Lemma length_argsort (a : list float) : length (argsort a) = length a.
Proof.
  destruct (sorts a) as [Hperm _].
  now rewrite (Permutation_length Hperm), length_seq.
Qed.

Lemma top_indices_by_suffix (similarities : list float) (top_k : Z) :
  exists n, top_indices_by argsort similarities top_k
            = reverse (drop n (argsort similarities))
            /\ ((1 <= top_k)%Z ->
                Z.of_nat (length similarities - n)
                = Z.min top_k (Z.of_nat (length similarities)))
            /\ (top_k = 0%Z -> n = 0).
Proof.
  unfold top_indices_by, NumPy.slice_from. eexists. split; [reflexivity|].
  rewrite length_argsort. split.
  - intros Hk. destruct (Z.ltb_spec (- top_k) 0); lia.
  - intros ->. simpl. lia.
Qed.

Lemma top_indices_by_in_range (similarities : list float) (top_k : Z) :
  Forall (fun i => i < length similarities)
         (top_indices_by argsort similarities top_k).
Proof.
  destruct (top_indices_by_suffix similarities top_k) as (n & -> & _).
  apply Forall_forall. intros i Hi.
  apply list_elem_of_lookup in Hi as [p Hp].
  apply RetrieveFacts.suffix_lookup_1 in Hp as [_ Hp].
  apply list_elem_of_lookup_2 in Hp.
  destruct (sorts similarities) as [Hperm _].
  rewrite Hperm in Hp. apply elem_of_seq in Hp. lia.
Qed.

Lemma length_top_indices_by (similarities : list float) (top_k : Z) :
  (1 <= top_k)%Z ->
  Z.of_nat (length (top_indices_by argsort similarities top_k))
  = Z.min top_k (Z.of_nat (length similarities)).
Proof.
  intros Hk.
  destruct (top_indices_by_suffix similarities top_k) as (n & -> & Hn & _).
  rewrite length_reverse, length_drop, length_argsort. auto.
Qed.

Lemma length_top_indices_by_zero (similarities : list float) :
  length (top_indices_by argsort similarities 0) = length similarities.
Proof.
  destruct (top_indices_by_suffix similarities 0) as (n & -> & _ & Hn).
  rewrite (Hn eq_refl), length_reverse, length_drop, length_argsort. lia.
Qed.

Lemma top_indices_by_descending (similarities : list float) (top_k : Z) :
  descending_in_sort_order similarities (top_indices_by argsort similarities top_k).
Proof.
  destruct (top_indices_by_suffix similarities top_k) as (n & -> & _).
  intros p q i j Hpq Hp Hq.
  apply RetrieveFacts.suffix_lookup_1 in Hp as [Hp1 Hp2].
  apply RetrieveFacts.suffix_lookup_1 in Hq as [Hq1 Hq2].
  destruct (sorts similarities) as [_ Hasc].
  eapply Hasc; [|exact Hq2|exact Hp2]. lia.
Qed.

Lemma top_indices_by_non_increasing (similarities : list float) (top_k : Z) :
  non_increasing similarities (top_indices_by argsort similarities top_k).
Proof.
  intros p q i j Hpq Hp Hq.
  pose proof (top_indices_by_descending similarities top_k p q i j Hpq Hp Hq) as H.
  destruct (PrimFloat.ltb (score_at similarities i) (score_at similarities j)) eqn:Hlt;
    [|reflexivity].
  apply FloatFacts.ltb_sort_lt in Hlt. congruence.
Qed.

Lemma retrieve_by_aligned (q : list float) (rows : list (list float))
      (chunks : list string) (top_k : Z) (similarities : list float) :
  cosine_similarities rows q = Ok similarities ->
  length similarities = length rows ->
  length chunks = length rows ->
  retrieve_by argsort q rows chunks top_k
  = Ok (map (fun i => nth i chunks EmptyString)
            (top_indices_by argsort similarities top_k),
        map (score_at similarities) (top_indices_by argsort similarities top_k)).
Proof.
  intros Hcos Hlen Hchunks. unfold retrieve_by. rewrite Hcos. simpl.
  pose proof (top_indices_by_in_range similarities top_k) as Hrange.
  rewrite (RetrieveFacts.traverse_getitem chunks EmptyString)
    by (rewrite Hchunks, <- Hlen; exact Hrange).
  simpl. rewrite (RetrieveFacts.traverse_getitem similarities nan) by exact Hrange.
  reflexivity.
Qed.

End ContractFacts.

(** The insertion sort keeps numpy's promise, and the retriever run with it
    is [retrieve]. *)
Lemma insertion_argsort_contract : argsort_contract NumPy.argsort.
Proof.
  intros a. split.
  - unfold NumPy.argsort.
    change (map fst (NumPy.sorted_entries a)) with (fst <$> NumPy.sorted_entries a).
    rewrite SortFacts.sorted_entries_perm. unfold NumPy.enumerate.
    generalize 0. induction a as [|x a IH]; intros n; simpl; [reflexivity|].
    now rewrite IH.
  - intros p q i j Hpq Hp Hq. unfold NumPy.argsort in Hp, Hq.
    change (map fst (NumPy.sorted_entries a))
      with (fst <$> NumPy.sorted_entries a) in Hp, Hq.
    rewrite list_lookup_fmap in Hp, Hq.
    destruct (NumPy.sorted_entries a !! p) as [[i' si]|] eqn:Hep; [|discriminate].
    destruct (NumPy.sorted_entries a !! q) as [[j' sj]|] eqn:Heq; [|discriminate].
    injection Hp as ->. injection Hq as ->.
    assert (score_at a i = si) as ->.
    { unfold score_at. rewrite nth_lookup.
      apply list_elem_of_lookup_2, SortFacts.elem_of_sorted_entries in Hep.
      now rewrite Hep. }
    assert (score_at a j = sj) as ->.
    { unfold score_at. rewrite nth_lookup.
      apply list_elem_of_lookup_2, SortFacts.elem_of_sorted_entries in Heq.
      now rewrite Heq. }
    pose proof (SortFacts.StronglySorted_lookup _ _
                  (SortFacts.sorted_entries_sorted a) _ _ _ _ Hpq Hep Heq)
      as [Hord|[Hord _]]; simpl in Hord.
    + now apply RetrieveFacts.sort_lt_asym.
    + exact Hord.
Qed.

Lemma retrieve_by_insertion_sort (q : list float) (rows : list (list float))
      (chunks : list string) (top_k : Z) :
  retrieve_by NumPy.argsort q rows chunks top_k = retrieve q rows chunks top_k.
Proof. reflexivity. Qed.

(** C1, as it holds of the code: for a positive [top_k] and at least one
    chunk vector of the question's dimension, with as many chunks as
    vectors, and for whatever sort [np.argsort] runs within numpy's
    promise, the retriever returns the chunks and scores of exactly
    [min top_k n] indices, all in range, in non-increasing order of
    similarity, an undefined similarity ranking above every number.
    Nothing is asserted of the order of chunks with equal similarity:
    numpy leaves it open. *)
Theorem retrieve_top_k
        (argsort : list float -> list nat)
        (q : list float) (rows : list (list float)) (chunks : list string)
        (top_k : Z) :
  argsort_contract argsort ->
  NumPy.aligned rows q = true ->
  length chunks = length rows ->
  (1 <= top_k)%Z ->
  exists similarities,
    cosine_similarities rows q = Ok similarities
    /\ retrieve_by argsort q rows chunks top_k
       = Ok (map (fun i => nth i chunks EmptyString)
                 (top_indices_by argsort similarities top_k),
             map (score_at similarities) (top_indices_by argsort similarities top_k))
    /\ Z.of_nat (length (top_indices_by argsort similarities top_k))
       = Z.min top_k (Z.of_nat (length rows))
    /\ Forall (fun i => i < length rows) (top_indices_by argsort similarities top_k)
    /\ non_increasing similarities (top_indices_by argsort similarities top_k)
    /\ descending_in_sort_order similarities
         (top_indices_by argsort similarities top_k).
Proof.
  intros Hsorts Hal Hchunks Hk.
  destruct (RetrieveFacts.cosine_similarities_aligned rows q Hal)
    as (similarities & Hcos & Hlen & _).
  exists similarities. split; [exact Hcos|].
  split; [now apply retrieve_by_aligned|].
  split; [rewrite <- Hlen; now apply length_top_indices_by|].
  split; [rewrite <- Hlen; now apply top_indices_by_in_range|].
  split; [now apply top_indices_by_non_increasing
         |now apply top_indices_by_descending].
Qed.

Lemma retrieve_top_k_witness :
  exists similarities,
    cosine_similarities tie_vectors example_question = Ok similarities
    /\ retrieve_by NumPy.argsort example_question tie_vectors tie_chunks 3
       = Ok (map (fun i => nth i tie_chunks EmptyString)
                 (top_indices_by NumPy.argsort similarities 3),
             map (score_at similarities) (top_indices_by NumPy.argsort similarities 3))
    /\ Z.of_nat (length (top_indices_by NumPy.argsort similarities 3))
       = Z.min 3 (Z.of_nat (length tie_vectors))
    /\ Forall (fun i => i < length tie_vectors)
              (top_indices_by NumPy.argsort similarities 3)
    /\ non_increasing similarities (top_indices_by NumPy.argsort similarities 3)
    /\ descending_in_sort_order similarities
         (top_indices_by NumPy.argsort similarities 3).
Proof.
  apply (retrieve_top_k NumPy.argsort example_question tie_vectors tie_chunks 3);
    [exact insertion_argsort_contract | reflexivity | reflexivity | lia].
Defined.

(** C1 as stated fails twice over.  For [top_k] zero, whatever sort numpy
    runs, the slice [[-0:]] keeps every index and the five chunks of the
    tie scenario are all returned, where [min 0 5] is zero.  And the order
    of equal similarities is not lower index first under every sort numpy
    may run: the insertion sort keeps numpy's promise, and with it the
    scenario (five chunks, [top_k] 3, chunks 2 and 4 with the same
    similarity) returns chunk 4 before chunk 2. *)
Lemma retrieve_count_and_tie_order_fail :
  (forall argsort, argsort_contract argsort ->
     exists relevant scores,
       retrieve_by argsort example_question tie_vectors tie_chunks 0
       = Ok (relevant, scores)
       /\ length relevant = 5
       /\ Z.min 0 (Z.of_nat (length tie_vectors)) = 0%Z)
  /\ (argsort_contract NumPy.argsort
      /\ cosine_similarities tie_vectors example_question = Ok tie_similarities
      /\ top_indices_by NumPy.argsort tie_similarities 3 = [1; 4; 2]
      /\ ~ ties_lower_index_first tie_similarities
           (top_indices_by NumPy.argsort tie_similarities 3)).
Proof.
  split.
  - intros argsort Hsorts.
    assert (cosine_similarities tie_vectors example_question = Ok tie_similarities)
      as Hcos by (vm_compute; reflexivity).
    eexists _, _. split; [|split].
    + apply (retrieve_by_aligned argsort Hsorts _ _ _ _ _ Hcos); reflexivity.
    + rewrite length_map. now apply length_top_indices_by_zero.
    + reflexivity.
  - split; [exact insertion_argsort_contract|].
    split; [vm_compute; reflexivity|].
    split; [vm_compute; reflexivity|].
    intros H.
    specialize (H 1 2 4 2).
    assert (4 < 2) as Habs; [|lia].
    apply H; [lia | vm_compute; reflexivity | vm_compute; reflexivity
             | vm_compute; reflexivity].
Qed.

(** Without any chunk vector the retriever raises, whatever the sort. *)
Example retrieve_without_vectors_raises (argsort : list float -> list nat) :
  exists e, retrieve_by argsort example_question [] [] 3 = Raise e.
Proof. eexists. reflexivity. Qed.

(** A [top_k] of zero does not select zero chunks: [-0] is [0], and the
    slice [[0:]] keeps every index, whatever the sort. *)
Lemma top_k_zero_selects_all (argsort : list float -> list nat)
      (similarities : list float) :
  argsort_contract argsort ->
  length (top_indices_by argsort similarities 0) = length similarities.
Proof. intros Hsorts. now apply length_top_indices_by_zero. Qed.

(** C2, as it holds of the code: for aligned inputs the retriever raises
    nothing; the similarity of a chunk is NaN when its vector or the
    question vector is a zero vector; and a chunk whose similarity is NaN is
    ranked FIRST: whenever a chunk with a defined score is selected, every
    chunk with an undefined score is selected before it. *)
Theorem zero_vector_ranked_first
        (q : list float) (rows : list (list float)) (chunks : list string)
        (top_k : Z) :
  NumPy.aligned rows q = true ->
  length chunks = length rows ->
  exists similarities,
    cosine_similarities rows q = Ok similarities
    /\ retrieve q rows chunks top_k
       = Ok (map (fun i => nth i chunks EmptyString) (top_indices similarities top_k),
             map (score_at similarities) (top_indices similarities top_k))
    /\ (forall i row, rows !! i = Some row ->
          zero_vector row \/ zero_vector q ->
          PrimFloat.is_nan (score_at similarities i) = true)
    /\ undefined_ranked_first similarities (top_indices similarities top_k).
Proof.
  intros Hal Hchunks.
  destruct (RetrieveFacts.cosine_similarities_aligned rows q Hal)
    as (similarities & Hcos & Hlen & Hscore).
  exists similarities. split; [exact Hcos|].
  split; [now apply RetrieveFacts.retrieve_aligned|].
  split; [|apply RetrieveFacts.top_undefined_ranked_first].
  intros i row Hrow Hz. rewrite (Hscore i row Hrow).
  now apply ZeroFacts.cosine_zero_nan.
Qed.

Lemma zero_vector_ranked_first_witness :
  exists similarities,
    cosine_similarities degenerate_vectors example_question = Ok similarities
    /\ retrieve example_question degenerate_vectors degenerate_chunks 1
       = Ok (map (fun i => nth i degenerate_chunks EmptyString)
                 (top_indices similarities 1),
             map (score_at similarities) (top_indices similarities 1))
    /\ (forall i row, degenerate_vectors !! i = Some row ->
          zero_vector row \/ zero_vector example_question ->
          PrimFloat.is_nan (score_at similarities i) = true)
    /\ undefined_ranked_first similarities (top_indices similarities 1).
Proof.
  apply (zero_vector_ranked_first example_question degenerate_vectors
           degenerate_chunks 1); reflexivity.
Defined.

(** C2 as stated fails: with a zero chunk vector at index 0 and [top_k] 1,
    the only chunk returned is the one with the undefined score, ahead of
    chunk 1, whose similarity is 1. *)
Lemma zero_norm_chunk_selected_first :
  cosine_similarities degenerate_vectors example_question
  = Ok degenerate_similarities
  /\ retrieve example_question degenerate_vectors degenerate_chunks 1
     = Ok (["c0"], [nan])
  /\ ~ undefined_ranked_last degenerate_similarities
         (top_indices degenerate_similarities 1).
Proof.
  split; [vm_compute; reflexivity|].
  split; [vm_compute; reflexivity|].
  intros H.
  destruct (H 0 1 0) as (q & Hq & _);
    [vm_compute; reflexivity | simpl; lia | vm_compute; reflexivity
    | vm_compute; reflexivity | lia].
Qed.

(** ** The answer synthesizer *)

Section SynthesizerFacts.
Variables (net : Network) (question : string) (context_chunks : list string).

Let prompt : string :=
  build_prompt (PyStr.join (newline +:+ newline) context_chunks) question.

Lemma query_deepseek_no_key (w : World) :
  PyStr.truthy (DEEPSEEK_API_KEY w) = false ->
  query_deepseek net question context_chunks w
  = Done (error_text MissingCredential) w.
Proof. intros H. unfold query_deepseek. now rewrite H. Qed.

(** With a key, exactly one call is sent, under that key, and the
    function never raises. *)
Lemma query_deepseek_with_key (w : World) :
  PyStr.truthy (DEEPSEEK_API_KEY w) = true ->
  let w' := record_post (deepseek_call (DEEPSEEK_API_KEY w) prompt) w in
  (exists answer, query_deepseek net question context_chunks w = Done answer w')
  \/ query_deepseek net question context_chunks w = Hung w'.
Proof.
  intros H. unfold query_deepseek. rewrite H. simpl.
  destruct net as [r|msg|]; simpl; eauto.
  destruct (status_code r =? 200)%Z; eauto.
  destruct (json_content r); eauto.
Qed.

End SynthesizerFacts.

(** C5: without a key, [query_deepseek] returns the text of the missing
    credential failure at once and the state, with the list of calls sent
    to the backend, is unchanged: no network call is made. *)
Theorem query_deepseek_missing_credential
        (net : Network) (question : string) (context_chunks : list string)
        (w : World) :
  DEEPSEEK_API_KEY w = EmptyString ->
  query_deepseek net question context_chunks w
  = Done (error_text MissingCredential) w
  /\ posted (final_world (query_deepseek net question context_chunks w))
     = posted w.
Proof.
  intros Hkey.
  rewrite query_deepseek_no_key by (rewrite Hkey; reflexivity).
  split; reflexivity.
Qed.

Lemma query_deepseek_missing_credential_witness :
  query_deepseek (Replies answer_response) "What is the title?" ["Title"]
                 (initial_world EmptyString)
  = Done (error_text MissingCredential) (initial_world EmptyString)
  /\ posted (final_world
               (query_deepseek (Replies answer_response) "What is the title?"
                               ["Title"] (initial_world EmptyString)))
     = posted (initial_world EmptyString).
Proof.
  apply (query_deepseek_missing_credential (Replies answer_response)
           "What is the title?" ["Title"] (initial_world EmptyString)).
  reflexivity.
Defined.

(** C8: on a response whose status is not 200, [query_deepseek] returns,
    without raising, the text of the backend failure built from the status
    code and the raw body of that response; for status 500 and body
    "server error" the text is "Error al consultar la API: 500 - server
    error". *)
Theorem query_deepseek_backend_error
        (r : Response) (question : string) (context_chunks : list string)
        (w : World) :
  PyStr.truthy (DEEPSEEK_API_KEY w) = true ->
  status_code r <> 200%Z ->
  (exists w',
      query_deepseek (Replies r) question context_chunks w
      = Done (error_text (BackendError (status_code r) (text r))) w')
  /\ error_text (BackendError 500 "server error")
     = "Error al consultar la API: 500 - server error".
Proof.
  intros Hkey Hstatus. split; [|reflexivity].
  unfold query_deepseek. rewrite Hkey. simpl.
  destruct (Z.eqb_spec (status_code r) 200) as [Heq|_]; [contradiction|].
  eexists. reflexivity.
Qed.

Lemma query_deepseek_backend_error_witness :
  (exists w',
      query_deepseek (Replies server_error_response) "What is the title?"
                     ["Title"] (initial_world "B")
      = Done (error_text (BackendError 500 "server error")) w')
  /\ error_text (BackendError 500 "server error")
     = "Error al consultar la API: 500 - server error".
Proof.
  apply (query_deepseek_backend_error server_error_response
           "What is the title?" ["Title"] (initial_world "B"));
    [reflexivity | discriminate].
Defined.

(** C9, as it holds of the code: the call to the backend is sent without a
    timeout.  An exception of the transport, whatever its cause, is
    reported as the text of the transport failure, and so is a body that
    cannot be read; but when the server never answers the call never
    returns. *)
Theorem query_deepseek_without_timeout
        (net : Network) (question : string) (context_chunks : list string)
        (w : World) :
  PyStr.truthy (DEEPSEEK_API_KEY w) = true ->
  let call :=
    deepseek_call (DEEPSEEK_API_KEY w)
      (build_prompt (PyStr.join (newline +:+ newline) context_chunks) question) in
  timeout call = None
  /\ posted (final_world (query_deepseek net question context_chunks w))
     = posted w ++ [call]
  /\ (forall msg, net = Fails msg ->
        query_deepseek net question context_chunks w
        = Done (error_text (TransportError msg)) (record_post call w))
  /\ (forall r e, net = Replies r -> status_code r = 200%Z ->
        json_content r = Raise e ->
        query_deepseek net question context_chunks w
        = Done (error_text (TransportError (str_exn e))) (record_post call w))
  /\ (net = Silent ->
        query_deepseek net question context_chunks w = Hung (record_post call w)).
Proof.
  intros Hkey call. split; [reflexivity|]. split.
  - destruct (query_deepseek_with_key net question context_chunks w Hkey)
      as [[answer ->]| ->]; reflexivity.
  - unfold query_deepseek. rewrite Hkey. simpl. split; [|split].
    + intros msg ->. reflexivity.
    + intros r e -> Hstatus Hjson. simpl. rewrite Hstatus, Hjson. reflexivity.
    + intros ->. reflexivity.
Qed.

Lemma query_deepseek_without_timeout_witness :
  let call :=
    deepseek_call (DEEPSEEK_API_KEY (initial_world "B"))
      (build_prompt (PyStr.join (newline +:+ newline) ["Title"])
                    "What is the title?") in
  timeout call = None
  /\ posted (final_world (query_deepseek Silent "What is the title?" ["Title"]
                                         (initial_world "B")))
     = posted (initial_world "B") ++ [call]
  /\ (forall msg, Silent = Fails msg ->
        query_deepseek Silent "What is the title?" ["Title"] (initial_world "B")
        = Done (error_text (TransportError msg))
               (record_post call (initial_world "B")))
  /\ (forall r e, Silent = Replies r -> status_code r = 200%Z ->
        json_content r = Raise e ->
        query_deepseek Silent "What is the title?" ["Title"] (initial_world "B")
        = Done (error_text (TransportError (str_exn e)))
               (record_post call (initial_world "B")))
  /\ (Silent = Silent ->
        query_deepseek Silent "What is the title?" ["Title"] (initial_world "B")
        = Hung (record_post call (initial_world "B"))).
Proof.
  apply (query_deepseek_without_timeout Silent "What is the title?" ["Title"]
           (initial_world "B")).
  reflexivity.
Defined.

(** C9 as stated fails: with a key configured and a server that never
    answers, the one call sent carries no timeout and [query_deepseek]
    never returns, so no transport failure is reported. *)
Lemma query_deepseek_hangs_on_silent_server :
  exists w',
    query_deepseek Silent "What is the title?" ["Title"] (initial_world "B")
    = Hung w'
    /\ map timeout (posted w') = [None].
Proof. eexists. split; reflexivity. Qed.

(** ** The request handlers *)

Section HandlerFacts.
Variable encode : list string -> result (list (list float)).

(** What a question can do to the state: nothing, or one more call to
    the backend, sent under the process-wide key. *)
Lemma ask_question_world (net : Network) (question_data : Question) (w : World) :
  let w' := final_world (ask_question encode net question_data w) in
  DEEPSEEK_API_KEY w' = DEEPSEEK_API_KEY w
  /\ documents w' = documents w
  /\ document_embeddings w' = document_embeddings w
  /\ (posted w' = posted w
      \/ exists prompt,
          posted w' = posted w ++ [deepseek_call (DEEPSEEK_API_KEY w) prompt]).
Proof.
  unfold ask_question, mbind, M_bind, get_world, try_except, raise. simpl.
  destruct (bool_decide (is_Some (documents w !! document_id question_data)));
    simpl; [|auto].
  destruct (lookup_key (documents w) (document_id question_data)) as [doc|e];
    simpl; [|auto].
  destruct (lookup_key (document_embeddings w) (document_id question_data))
    as [vectors|e]; simpl; [|auto].
  destruct (find_relevant_chunks encode (doc_chunks doc) vectors
              (question question_data) 3) as [[relevant scores]|e];
    simpl; [|auto].
  unfold try_finally, modify.
  destruct (PyStr.truthy (DEEPSEEK_API_KEY w)) eqn:Hkey.
  - destruct (query_deepseek_with_key net (question question_data) relevant w Hkey)
      as [[answer ->]| ->]; simpl; eauto 10.
  - rewrite query_deepseek_no_key by exact Hkey. simpl.
    destruct w; auto.
Qed.

Lemma post_ask_question_world (net : Network) (body : gmap string string)
      (w : World) :
  let w' := final_world (post_ask_question encode net body w) in
  DEEPSEEK_API_KEY w' = DEEPSEEK_API_KEY w
  /\ documents w' = documents w
  /\ document_embeddings w' = document_embeddings w
  /\ (posted w' = posted w
      \/ exists prompt,
          posted w' = posted w ++ [deepseek_call (DEEPSEEK_API_KEY w) prompt]).
Proof.
  unfold post_ask_question.
  destruct (Question_validate body) as [question_data|].
  - apply ask_question_world.
  - simpl. auto.
Qed.

Lemma save_settings_world (settings : gmap string string) (w : World) :
  let w' := final_world (save_settings settings w) in
  documents w' = documents w
  /\ document_embeddings w' = document_embeddings w.
Proof.
  unfold save_settings, try_except, mbind, M_bind, override_key, modify, mret, M_ret.
  destruct (settings !! "deepseek_api_key") as [k|]; simpl; [|auto].
  destruct (PyStr.truthy k); simpl; auto.
Qed.

(** An upload either changes nothing or stores the chunks of the text and
    the vectors the embedder returned for them, both under its identifier. *)
Lemma upload_document_world (document_id filename : string)
      (saved : result unit) (extracted : result string) (w : World) :
  let w' := final_world (upload_document encode document_id filename saved extracted w) in
  w' = w
  \/ exists text vectors,
      extracted = Ok text
      /\ encode (split_chunks text) = Ok vectors
      /\ w' = set_document_embeddings document_id vectors
                (set_documents document_id
                   {| doc_filename := filename;
                      doc_path := "uploads/" +:+ document_id +:+ "_" +:+ filename;
                      doc_text := text;
                      doc_chunks := split_chunks text |} w).
Proof.
  unfold upload_document, try_except, mbind, M_bind, lift, raise, modify, mret, M_ret.
  destruct saved as [[]|e]; simpl; [|auto].
  destruct extracted as [text|e]; simpl; [|auto].
  unfold process_document.
  destruct (encode (split_chunks text)) as [vectors|e] eqn:Henc; simpl; [|auto].
  right. exists text, vectors. auto.
Qed.

Lemma set_tables_aligned (id : string) (d : Document)
      (vectors : list (list float)) (w : World) :
  length vectors = length (doc_chunks d) ->
  vectors_aligned w ->
  vectors_aligned (set_document_embeddings id vectors (set_documents id d w)).
Proof.
  intros Hlen Hw id' d'. simpl. rewrite !lookup_insert.
  destruct (decide (id = id')) as [->|Hne].
  - intros [= <-]. eauto.
  - apply Hw.
Qed.

Lemma serve_aligned (w : World) (r : Request) :
  one_vector_per_text encode -> vectors_aligned w ->
  vectors_aligned (serve encode w r).
Proof.
  intros Henc Hw. destruct r as [id filename saved extracted|net body|settings]; simpl.
  - destruct (upload_document_world id filename saved extracted w)
      as [->|(text & vectors & _ & Hvec & ->)]; [exact Hw|].
    apply set_tables_aligned; [|exact Hw]. simpl. now apply Henc.
  - destruct (post_ask_question_world net body w) as (_ & Hd & He & _).
    unfold vectors_aligned. rewrite Hd, He. exact Hw.
  - destruct (save_settings_world settings w) as (Hd & He).
    unfold vectors_aligned. rewrite Hd, He. exact Hw.
Qed.

Lemma serve_all_aligned (requests : list Request) (w : World) :
  one_vector_per_text encode -> vectors_aligned w ->
  vectors_aligned (serve_all encode requests w).
Proof.
  intros Henc. revert w. unfold serve_all.
  induction requests as [|r rest IH]; intros w Hw; simpl; [exact Hw|].
  apply IH. now apply serve_aligned.
Qed.

Lemma serve_other_entries (w : World) (r : Request) (id : string) :
  ~ uploads_under id r ->
  documents (serve encode w r) !! id = documents w !! id
  /\ document_embeddings (serve encode w r) !! id = document_embeddings w !! id.
Proof.
  intros Hr. destruct r as [id' filename saved extracted|net body|settings]; simpl.
  - destruct (upload_document_world id' filename saved extracted w)
      as [->|(text & vectors & _ & _ & ->)]; [auto|].
    simpl in Hr |- *. rewrite !lookup_insert_ne by exact Hr. auto.
  - destruct (post_ask_question_world net body w) as (_ & -> & -> & _). auto.
  - destruct (save_settings_world settings w) as (-> & ->). auto.
Qed.

End HandlerFacts.

(** C3, as it holds of the code: when chunking yields no chunk, the upload
    fails, leaving the state as it was, only if the embedder raises on the
    empty batch; when the embedder returns, the upload succeeds and stores
    the document with an empty list of chunks together with what the
    embedder returned, both tables being written. *)
Theorem upload_without_chunks
        (encode : list string -> result (list (list float)))
        (document_id filename text : string) (w : World) :
  split_chunks text = [] ->
  match encode [] with
  | Ok vectors =>
      upload_document encode document_id filename (Ok tt) (Ok text) w
      = Done (document_id, "Documento subido correctamente")
             (set_document_embeddings document_id vectors
                (set_documents document_id
                   (empty_document document_id filename text) w))
  | Raise e =>
      exists detail,
        upload_document encode document_id filename (Ok tt) (Ok text) w
        = Raised (HTTPException 500 detail) w
  end.
Proof.
  intros Hempty.
  unfold upload_document, try_except, mbind, M_bind, lift, raise, modify, mret, M_ret,
    process_document, empty_document.
  simpl. rewrite Hempty.
  destruct (encode []) as [vectors|e]; simpl; [reflexivity|].
  eexists. reflexivity.
Qed.

Lemma upload_without_chunks_witness :
  upload_document unit_encode "d0" "empty.txt" (Ok tt) (Ok EmptyString)
                  (initial_world "B")
  = Done ("d0", "Documento subido correctamente")
         (set_document_embeddings "d0" []
            (set_documents "d0" (empty_document "d0" "empty.txt" EmptyString)
                           (initial_world "B"))).
Proof.
  apply (upload_without_chunks unit_encode "d0" "empty.txt" EmptyString
           (initial_world "B")).
  reflexivity.
Defined.

(** With an embedder that raises, the same upload stores nothing. *)
Example upload_with_failing_embedder :
  exists detail,
    upload_document failing_encode "d0" "empty.txt" (Ok tt) (Ok EmptyString)
                    (initial_world "B")
    = Raised (HTTPException 500 detail) (initial_world "B").
Proof. eexists. reflexivity. Qed.

(** C3 as stated fails: the empty text yields no chunk, and yet its upload
    succeeds and the document table gains an entry for the new identifier. *)
Lemma upload_of_empty_text_is_stored :
  split_chunks EmptyString = []
  /\ exists w',
      upload_document unit_encode "d0" "empty.txt" (Ok tt) (Ok EmptyString)
                      (initial_world "B")
      = Done ("d0", "Documento subido correctamente") w'
      /\ documents (initial_world "B") !! "d0" = None
      /\ documents w' !! "d0" = Some (empty_document "d0" "empty.txt" EmptyString)
      /\ document_embeddings w' !! "d0" = Some [].
Proof.
  split; [reflexivity|].
  eexists. split; [reflexivity|].
  split; [reflexivity|]. split; vm_compute; reflexivity.
Qed.

(** C4 on the code: whatever the request body carries, and so also when it
    carries a credential of its own, a question leaves the process-wide
    key as it was and a call it sends to the backend is authorized with
    that process-wide key.  On the example request, which carries the
    credential "A" while the process-wide key is "B", the one call sent is
    authorized with "Bearer B". *)
Theorem ask_question_sends_default_credential :
  (forall encode net body w,
      let w' := final_world (post_ask_question encode net body w) in
      DEEPSEEK_API_KEY w' = DEEPSEEK_API_KEY w
      /\ forall call, call ∈ posted w' ->
           call ∈ posted w
           \/ authorization call = Some ("Bearer " +:+ DEEPSEEK_API_KEY w))
  /\ body_with_credential !! "api_key" = Some "A"
  /\ DEEPSEEK_API_KEY stored_world = "B"
  /\ exists w',
      post_ask_question unit_encode (Replies answer_response)
                        body_with_credential stored_world
      = Done "The title." w'
      /\ map authorization (posted w') = [Some "Bearer B"]
      /\ DEEPSEEK_API_KEY w' = "B".
Proof.
  split.
  - intros encode net body w.
    destruct (post_ask_question_world encode net body w) as (Hkey & _ & _ & Hposted).
    split; [exact Hkey|]. intros call Hcall.
    destruct Hposted as [Hsame|[prompt Hnew]].
    + left. simpl in Hcall. now rewrite Hsame in Hcall.
    + simpl in Hcall. rewrite Hnew in Hcall.
      apply elem_of_app in Hcall as [Hold|Hin]; [now left|].
      apply list_elem_of_singleton in Hin as ->. right. reflexivity.
  - split; [reflexivity|]. split; [reflexivity|].
    eexists. split; [vm_compute; reflexivity|].
    split; vm_compute; reflexivity.
Qed.

(** C7: when the embedder returns one vector per text, then after any
    sequence of requests every stored document has exactly as many vectors
    as chunks; and a request leaves the stored chunks and vectors of an
    identifier untouched unless it is an upload under that identifier. *)
Theorem vectors_aligned_always
        (encode : list string -> result (list (list float))) :
  one_vector_per_text encode ->
  (forall requests key,
      vectors_aligned (serve_all encode requests (initial_world key)))
  /\ (forall w r id,
         ~ uploads_under id r ->
         documents (serve encode w r) !! id = documents w !! id
         /\ document_embeddings (serve encode w r) !! id
            = document_embeddings w !! id).
Proof.
  intros Henc. split.
  - intros requests key. apply serve_all_aligned; [exact Henc|].
    intros id d Hd. simpl in Hd. rewrite lookup_empty in Hd. discriminate.
  - intros w r id. apply serve_other_entries.
Qed.

Lemma unit_encode_one_vector_per_text : one_vector_per_text unit_encode.
Proof.
  intros texts vectors [= <-]. apply length_map.
Qed.

Lemma vectors_aligned_always_witness :
  (forall requests key,
      vectors_aligned (serve_all unit_encode requests (initial_world key)))
  /\ (forall w r id,
         ~ uploads_under id r ->
         documents (serve unit_encode w r) !! id = documents w !! id
         /\ document_embeddings (serve unit_encode w r) !! id
            = document_embeddings w !! id).
Proof.
  apply (vectors_aligned_always unit_encode).
  exact unit_encode_one_vector_per_text.
Defined.

(** * Further properties of the code *)

(** ** The chunker: what every chunk looks like *)

Section ChunkShape.
Import PyStr.

Lemma rstrip_cons_length (c : ascii) (s : string) :
  String.length (rstrip s) <= String.length (rstrip (String c s)).
Proof. cbn [rstrip]. destruct (rstrip s); [destruct (isspace c)|]; simpl; lia. Qed.

Lemma rstrip_lstrip_length (s : string) :
  String.length (rstrip (lstrip s)) <= String.length (rstrip s).
Proof.
  induction s as [|c s IH]; [reflexivity|].
  cbn [lstrip]. destruct (isspace c); [|lia].
  etransitivity; [exact IH | apply rstrip_cons_length].
Qed.

(** Text before a segment never shortens what stripping leaves of it. *)
Lemma strip_append_length (x s : string) :
  String.length (strip s) <= String.length (strip (x +:+ s)).
Proof.
  induction x as [|c x IH]; [reflexivity|].
  unfold strip in *. change (String c x +:+ s) with (String c (x +:+ s)).
  cbn [lstrip]. destruct (isspace c); [exact IH|].
  etransitivity; [exact IH|].
  etransitivity; [apply rstrip_lstrip_length | apply rstrip_cons_length].
Qed.

Lemma rstrip_cons (c : ascii) (s : string) :
  rstrip (String c s)
  = match rstrip s with
    | EmptyString => if isspace c then EmptyString else String c EmptyString
    | r => String c r
    end.
Proof. reflexivity. Qed.

Lemma rstrip_idempotent (s : string) : rstrip (rstrip s) = rstrip s.
Proof.
  induction s as [|c s IH]; [reflexivity|].
  rewrite rstrip_cons. destruct (rstrip s) as [|d r] eqn:Hr.
  - destruct (isspace c) eqn:Hc; [reflexivity|]. cbn. now rewrite Hc.
  - rewrite rstrip_cons, IH. reflexivity.
Qed.

Lemma rstrip_head (c : ascii) (s : string) :
  rstrip (String c s) = EmptyString \/ exists r, rstrip (String c s) = String c r.
Proof.
  cbn [rstrip]. destruct (rstrip s); [destruct (isspace c)|]; eauto.
Qed.

Lemma lstrip_head (s : string) :
  lstrip s = EmptyString \/ exists c r, lstrip s = String c r /\ isspace c = false.
Proof.
  induction s as [|c s IH]; [now left|].
  cbn [lstrip]. destruct (isspace c) eqn:Hc; [exact IH|]. right. eauto.
Qed.

Lemma strip_idempotent (s : string) : strip (strip s) = strip s.
Proof.
  unfold strip.
  assert (lstrip (rstrip (lstrip s)) = rstrip (lstrip s)) as ->.
  { destruct (lstrip_head s) as [->|(c & r & -> & Hc)]; [reflexivity|].
    destruct (rstrip_head c r) as [->|[r' ->]]; [reflexivity|].
    cbn [lstrip]. now rewrite Hc. }
  apply rstrip_idempotent.
Qed.

Lemma append_assoc (a b c : string) : a +:+ (b +:+ c) = (a +:+ b) +:+ c.
Proof.
  induction a as [|x a IH]; [reflexivity|].
  change (String x (a +:+ (b +:+ c)) = String x ((a +:+ b) +:+ c)).
  now rewrite IH.
Qed.

Lemma append_segment_suffix (buffer seg : string) :
  exists x, append_segment buffer seg = x +:+ seg.
Proof.
  unfold append_segment. destruct (truthy buffer).
  - exists (buffer +:+ " "). apply append_assoc.
  - now exists EmptyString.
Qed.

(** Every chunk the accumulation emits is stripped and has at least five
    characters, when the buffer it starts from is empty or has at least
    five characters once stripped, and every segment does. *)
Lemma accumulate_shape (segs : list string) (buffer : string) :
  (truthy buffer = true -> 5 <= String.length (strip buffer)) ->
  Forall (fun seg => 5 <= String.length (strip seg)) segs ->
  Forall (fun c => strip c = c /\ 5 <= String.length c)
         (accumulate overflows_sum buffer segs).
Proof.
  revert buffer. induction segs as [|seg rest IH]; intros buffer Hb Hsegs; simpl.
  - unfold close_buffer. destruct (truthy buffer); [|constructor].
    constructor; [|constructor]. split; [apply strip_idempotent | now apply Hb].
  - apply Forall_cons in Hsegs as [Hseg Hrest].
    destruct (overflows_sum buffer seg).
    + apply Forall_app. split.
      * unfold close_buffer. destruct (truthy buffer); [|constructor].
        constructor; [|constructor]. split; [apply strip_idempotent | now apply Hb].
      * apply IH; [intros _; exact Hseg | exact Hrest].
    + apply IH; [|exact Hrest]. intros _.
      destruct (append_segment_suffix buffer seg) as [x ->].
      etransitivity; [exact Hseg | apply strip_append_length].
Qed.

Lemma kept_segments_long (text : string) :
  Forall (fun seg => 5 <= String.length (strip seg)) (kept_segments text).
Proof.
  unfold kept_segments. apply Forall_forall. intros seg Hseg.
  apply list_elem_of_In, filter_In in Hseg as [_ Hseg]. now apply Nat.leb_le.
Qed.

End ChunkShape.

(** X1: every chunk [process_document] produces is free of leading and
    trailing whitespace and at least five characters long. *)
Theorem chunks_are_stripped_and_long (text : string) :
  Forall (fun c => PyStr.strip c = c /\ 5 <= String.length c) (split_chunks text).
Proof.
  rewrite split_chunks_accumulate. unfold chunk_reference_sum.
  apply accumulate_shape; [discriminate | apply kept_segments_long].
Qed.

(** ** The chunker: what happens to the lines *)

Section ChunkGroups.
Import PyStr.

Lemma truthy_append_segment (buffer seg : string) :
  truthy buffer = true \/ truthy seg = true ->
  truthy (append_segment buffer seg) = true.
Proof.
  unfold append_segment. destruct buffer as [|c b]; simpl.
  - intros [H|H]; [discriminate | exact H].
  - reflexivity.
Qed.

Lemma truthy_fold_segments (parts : list string) (acc : string) :
  Forall (fun s => truthy s = true) parts ->
  truthy acc = true \/ parts <> [] ->
  truthy (fold_left append_segment parts acc) = true.
Proof.
  revert acc. induction parts as [|p parts IH]; intros acc Hparts Hacc; simpl.
  - destruct Hacc as [H|H]; [exact H | contradiction].
  - apply Forall_cons in Hparts as [Hp Hparts]. apply IH; [exact Hparts|].
    left. apply truthy_append_segment. now right.
Qed.

Lemma truthy_join_segments (current : list string) :
  Forall (fun s => truthy s = true) current ->
  truthy (join_segments current) = false -> current = [].
Proof.
  intros Hall Hfalse. destruct current as [|p rest]; [reflexivity|].
  unfold join_segments in Hfalse.
  rewrite truthy_fold_segments in Hfalse; [discriminate | exact Hall | now right].
Qed.

Lemma open_group_concat (current : list string) :
  Forall (fun s => truthy s = true) current ->
  concat (if truthy (join_segments current) then [current] else []) = current.
Proof.
  intros Hall. destruct (truthy (join_segments current)) eqn:Hj; simpl.
  - apply app_nil_r.
  - symmetry. now apply truthy_join_segments.
Qed.

(** The groups, read in order, are the segments in order. *)
Lemma segment_groups_concat (segs current : list string) :
  Forall (fun s => truthy s = true) current ->
  Forall (fun s => truthy s = true) segs ->
  concat (segment_groups current segs) = current ++ segs.
Proof.
  revert current. induction segs as [|seg rest IH]; intros current Hcur Hsegs; simpl.
  - rewrite open_group_concat by exact Hcur. now rewrite app_nil_r.
  - apply Forall_cons in Hsegs as [Hseg Hrest].
    destruct (overflows_sum (join_segments current) seg).
    + rewrite concat_app, open_group_concat by exact Hcur.
      rewrite (IH [seg]); [reflexivity | now constructor | exact Hrest].
    + rewrite IH; [now rewrite <- app_assoc | | exact Hrest].
      apply Forall_app. split; [exact Hcur | now constructor].
Qed.

Lemma kept_segments_truthy (text : string) :
  Forall (fun s => truthy s = true) (kept_segments text).
Proof.
  eapply Forall_impl; [apply kept_segments_long|].
  intros [|c s]; simpl; [lia | reflexivity].
Qed.

(** A segment of more than 500 characters is alone in its group. *)
Lemma long_segment_alone (segs current : list string) :
  (forall seg, In seg current -> 500 < String.length seg -> current = [seg]) ->
  forall g seg, In g (segment_groups current segs) -> In seg g ->
                500 < String.length seg -> g = [seg].
Proof.
  revert current. induction segs as [|s rest IH]; intros current Hcur g seg; simpl.
  - destruct (truthy (join_segments current)); simpl; [|tauto].
    intros [<-|[]]. apply Hcur.
  - destruct (overflows_sum (join_segments current) s) eqn:Hov.
    + rewrite in_app_iff. intros [Hg|Hg].
      * destruct (truthy (join_segments current)); simpl in Hg; [|tauto].
        destruct Hg as [<-|[]]. apply Hcur.
      * revert Hg. apply IH. intros x [<-|[]] _. reflexivity.
    + apply IH. intros x Hx Hlong. exfalso.
      unfold overflows_sum in Hov. apply Nat.ltb_ge in Hov.
      apply in_app_iff in Hx as [Hx|[<-|[]]]; [|lia].
      rewrite (Hcur x Hx Hlong) in Hov.
      change (join_segments [x]) with x in Hov. lia.
Qed.

End ChunkGroups.

(** X2: the chunks are the stripped joins of groups of lines, and the
    groups, read in order, are exactly the lines of at least five
    characters: no such line is lost, repeated or moved. *)
Theorem chunks_partition_the_lines (text : string) :
  split_chunks text
  = map (fun g => PyStr.strip (join_segments g))
        (segment_groups [] (kept_segments text))
  /\ concat (segment_groups [] (kept_segments text)) = kept_segments text.
Proof.
  split.
  - rewrite split_chunks_accumulate.
    apply (accumulate_groups (kept_segments text) []).
  - apply (segment_groups_concat (kept_segments text) []);
      [constructor | apply kept_segments_truthy].
Qed.

(** X3: [process_document] produces no chunk exactly when no line of the
    text has five characters or more once stripped. *)
Theorem no_chunks_iff_no_line (text : string) :
  split_chunks text = [] <-> kept_segments text = [].
Proof.
  split.
  - intros Hnone.
    rewrite split_chunks_accumulate in Hnone. unfold chunk_reference_sum in Hnone.
    pose proof (accumulate_groups (kept_segments text) []) as Hgroups.
    change (join_segments []) with EmptyString in Hgroups.
    rewrite Hgroups in Hnone. apply map_eq_nil in Hnone.
    pose proof (segment_groups_concat (kept_segments text) [] (Forall_nil_2 _)
                  (kept_segments_truthy text)) as Hconcat.
    rewrite Hnone in Hconcat. symmetry. exact Hconcat.
  - intros Hnone. rewrite split_chunks_accumulate.
    unfold chunk_reference_sum. rewrite Hnone. reflexivity.
Qed.

(** X4: a line of more than 500 characters is never joined with another
    line: the group of the chunk it goes into holds that line only. *)
Theorem long_line_is_its_own_chunk (text : string) (g : list string) (seg : string) :
  In g (segment_groups [] (kept_segments text)) ->
  In seg g ->
  500 < String.length seg ->
  g = [seg].
Proof.
  apply long_segment_alone. intros x [].
Qed.

Lemma long_line_is_its_own_chunk_witness :
  segment_groups [] (kept_segments long_line_text)
  = [["short line"]; [PyStr.replicate 600 "a"]; ["another short line"]]
  /\ [PyStr.replicate 600 "a"] = [PyStr.replicate 600 "a"].
Proof.
  split; [vm_compute; reflexivity|].
  apply (long_line_is_its_own_chunk long_line_text
           [PyStr.replicate 600 "a"] (PyStr.replicate 600 "a")).
  - vm_compute. right. left. reflexivity.
  - left. reflexivity.
  - vm_compute. lia.
Defined.

(** ** The retriever: which chunks are selected *)

Section Selection.
Import NumPy.

Lemma fst_combine_seq (a : list float) (n : nat) :
  fst <$> combine (seq n (length a)) a = seq n (length a).
Proof.
  revert n. induction a as [|x a IH]; intros n; simpl; [reflexivity|].
  f_equal. apply IH.
Qed.

(** [np.argsort] returns every position exactly once. *)
Lemma argsort_permutation (a : list float) : argsort a ≡ₚ seq 0 (length a).
Proof.
  unfold argsort. change (map fst (sorted_entries a)) with (fst <$> sorted_entries a).
  rewrite SortFacts.sorted_entries_perm. unfold enumerate.
  now rewrite fst_combine_seq.
Qed.

Lemma NoDup_drop {A : Type} (n : nat) (l : list A) : NoDup l -> NoDup (drop n l).
Proof.
  intros H. rewrite <- (take_drop n l) in H.
  now apply NoDup_app in H as (_ & _ & H).
Qed.

Lemma top_indices_NoDup (similarities : list float) (top_k : Z) :
  NoDup (top_indices similarities top_k).
Proof.
  unfold top_indices, slice_from. rewrite reverse_Permutation.
  apply NoDup_drop. rewrite argsort_permutation. apply NoDup_seq.
Qed.

Lemma top_indices_all (similarities : list float) (top_k : Z) :
  (Z.of_nat (length similarities) <= top_k)%Z ->
  top_indices similarities top_k ≡ₚ seq 0 (length similarities).
Proof.
  intros Hk. unfold top_indices, slice_from. rewrite reverse_Permutation.
  rewrite <- argsort_permutation.
  replace (length (argsort similarities)) with (length similarities)
    by (now rewrite argsort_permutation, length_seq).
  match goal with |- drop ?n _ ≡ₚ _ => replace n with 0 end; [reflexivity|].
  destruct (Z.ltb_spec (- top_k) 0); lia.
Qed.

Lemma length_top_indices_nonpositive (similarities : list float) (top_k : Z) :
  (top_k <= 0)%Z ->
  Z.of_nat (length (top_indices similarities top_k))
  = Z.max 0 (Z.of_nat (length similarities) + top_k).
Proof.
  intros Hk. unfold top_indices, slice_from.
  rewrite length_reverse, length_drop.
  replace (length (argsort similarities)) with (length similarities)
    by (now rewrite argsort_permutation, length_seq).
  destruct (Z.ltb_spec (- top_k) 0); lia.
Qed.

(** A chunk that is not selected does not score higher than one that is. *)
Lemma top_indices_maximal (similarities : list float) (top_k : Z) (i j : nat) :
  i ∈ top_indices similarities top_k ->
  j < length similarities ->
  j ∉ top_indices similarities top_k ->
  PrimFloat.ltb (score_at similarities i) (score_at similarities j) = false.
Proof.
  intros Hi Hj Hnot.
  apply list_elem_of_lookup in Hi as [p Hp].
  apply RetrieveFacts.top_indices_lookup in Hp as (si & Hp & _ & ->).
  destruct (lookup_lt_is_Some_2 similarities j Hj) as [sj Hsj].
  assert (score_at similarities j = sj) as ->
      by (unfold score_at; now rewrite nth_lookup, Hsj).
  assert ((j, sj) ∈ sorted_entries similarities) as Hin
      by now apply SortFacts.elem_of_sorted_entries.
  apply list_elem_of_lookup in Hin as [b Hb].
  rewrite RetrieveFacts.top_indices_entries in Hnot.
  destruct (RetrieveFacts.top_entries_suffix similarities top_k) as (n & Htop & _).
  rewrite Htop in Hp, Hnot.
  apply RetrieveFacts.suffix_lookup_1 in Hp as [Hp1 Hp2].
  destruct (Nat.le_gt_cases n b) as [Hnb|Hbn].
  - exfalso. apply Hnot.
    apply (list_elem_of_fmap_2 fst _ (j, sj)).
    eapply list_elem_of_lookup_2.
    apply (RetrieveFacts.suffix_lookup_2 _ n b); [exact Hnb | exact Hb].
  - assert (b < length (sorted_entries similarities) - S p) as Hlt by lia.
    pose proof (SortFacts.StronglySorted_lookup _ _
                  (SortFacts.sorted_entries_sorted similarities)
                  _ _ _ _ Hlt Hb Hp2) as Hord.
    destruct (PrimFloat.ltb si sj) eqn:Hcmp; [|reflexivity].
    apply FloatFacts.ltb_sort_lt in Hcmp.
    destruct Hord as [Hord|[Hord _]]; simpl in Hord.
    + apply RetrieveFacts.sort_lt_asym in Hord. congruence.
    + congruence.
Qed.

End Selection.

(** X5: the retriever selects the highest scores: a chunk that is left out
    never has a greater similarity than a chunk that is returned. *)
Theorem retrieve_selects_the_largest
        (similarities : list float) (top_k : Z) (i j : nat) :
  i ∈ top_indices similarities top_k ->
  j < length similarities ->
  j ∉ top_indices similarities top_k ->
  PrimFloat.ltb (score_at similarities i) (score_at similarities j) = false.
Proof. apply top_indices_maximal. Qed.

Lemma retrieve_selects_the_largest_witness :
  PrimFloat.ltb (score_at tie_similarities 2) (score_at tie_similarities 0) = false.
Proof.
  apply (retrieve_selects_the_largest tie_similarities 3 2 0).
  - vm_compute. do 2 apply list_elem_of_further. apply list_elem_of_here.
  - vm_compute. lia.
  - vm_compute. intros H.
    repeat (apply elem_of_cons in H as [H|H]; [discriminate H|]).
    inversion H.
Defined.

(** X6: no chunk is returned twice, and when [top_k] is at least the number
    of chunks every chunk is returned. *)
Theorem retrieve_returns_distinct_chunks (similarities : list float) (top_k : Z) :
  NoDup (top_indices similarities top_k)
  /\ ((Z.of_nat (length similarities) <= top_k)%Z ->
      top_indices similarities top_k ≡ₚ seq 0 (length similarities)).
Proof.
  split; [apply top_indices_NoDup | apply top_indices_all].
Qed.

(** X7: for a [top_k] that is zero or negative the slice [[-top_k:]] does
    not select nothing: with [n] chunks it returns [n + top_k] of them, all
    [n] for zero, and none only from [-n] downwards. *)
Theorem retrieve_with_nonpositive_top_k (similarities : list float) (top_k : Z) :
  (top_k <= 0)%Z ->
  Z.of_nat (length (top_indices similarities top_k))
  = Z.max 0 (Z.of_nat (length similarities) + top_k).
Proof. apply length_top_indices_nonpositive. Qed.

Lemma retrieve_with_nonpositive_top_k_witness :
  Z.of_nat (length (top_indices tie_similarities 0))
  = Z.max 0 (Z.of_nat (length tie_similarities) + 0).
Proof.
  apply (retrieve_with_nonpositive_top_k tie_similarities 0). lia.
Defined.

(** ** The synthesizer and the handlers: outcomes and state *)

Section OutcomeFacts.
Variable encode : list string -> result (list (list float)).

Lemma set_key_same (w : World) : set_DEEPSEEK_API_KEY (DEEPSEEK_API_KEY w) w = w.
Proof. now destruct w. Qed.

(** Once the chunks have been retrieved, the handler returns what the
    synthesizer returns. *)
Lemma ask_question_after_retrieval
      (net : Network) (question_data : Question) (w : World) (d : Document)
      (vectors : list (list float)) (relevant : list string) (scores : list float) :
  documents w !! document_id question_data = Some d ->
  document_embeddings w !! document_id question_data = Some vectors ->
  find_relevant_chunks encode (doc_chunks d) vectors (question question_data) 3
  = Ok (relevant, scores) ->
  ask_question encode net question_data w
  = query_deepseek net (question question_data) relevant w.
Proof.
  intros Hd Hv Hfind.
  unfold ask_question, mbind, M_bind, get_world, try_except, raise, lookup_key. simpl.
  rewrite Hd, Hv. simpl. rewrite Hfind. simpl.
  unfold try_finally, modify.
  destruct (PyStr.truthy (DEEPSEEK_API_KEY w)) eqn:Hkey.
  - destruct (query_deepseek_with_key net (question question_data) relevant w Hkey)
      as [[answer ->]| ->]; reflexivity.
  - rewrite query_deepseek_no_key by exact Hkey. now rewrite set_key_same.
Qed.

Lemma ask_question_status (net : Network) (question_data : Question) (w : World) :
  match documents w !! document_id question_data with
  | None =>
      ask_question encode net question_data w
      = Raised (HTTPException 404 "Documento no encontrado") w
  | Some _ =>
      match ask_question encode net question_data w with
      | Done _ _ | Hung _ => True
      | Raised e w' => w' = w /\ exists detail, e = HTTPException 500 detail
      end
  end.
Proof.
  unfold ask_question, mbind, M_bind, get_world, try_except, raise, lookup_key. simpl.
  destruct (documents w !! document_id question_data) as [d|] eqn:Hd; simpl;
    [|reflexivity].
  destruct (document_embeddings w !! document_id question_data) as [vectors|];
    simpl; [|eauto].
  destruct (find_relevant_chunks encode (doc_chunks d) vectors
              (question question_data) 3) as [[relevant scores]|e]; simpl; [|eauto].
  unfold try_finally, modify.
  destruct (PyStr.truthy (DEEPSEEK_API_KEY w)) eqn:Hkey.
  - destruct (query_deepseek_with_key net (question question_data) relevant w Hkey)
      as [[answer ->]| ->]; exact I.
  - rewrite query_deepseek_no_key by exact Hkey. exact I.
Qed.

Lemma find_relevant_chunks_without_vectors
      (chunks : list string) (question : string) (top_k : Z) :
  exists e, find_relevant_chunks encode chunks [] question top_k = Raise e.
Proof.
  unfold find_relevant_chunks.
  destruct (encode [question]) as [encoded|e]; simpl; [|eauto].
  destruct (getitem encoded 0) as [q|e]; simpl; eauto.
Qed.

Lemma override_key_truthy (key : option string) (w : World) :
  PyStr.truthy (DEEPSEEK_API_KEY w) = true ->
  PyStr.truthy (DEEPSEEK_API_KEY (final_world (override_key key w))) = true.
Proof.
  intros Hw. unfold override_key. destruct key as [k|]; [|exact Hw].
  destruct (PyStr.truthy k) eqn:Hk; [exact Hk | exact Hw].
Qed.

Lemma save_settings_key (settings : gmap string string) (w : World) :
  final_world (save_settings settings w)
  = final_world (override_key (settings !! "deepseek_api_key") w).
Proof.
  unfold save_settings, try_except, mbind, M_bind, override_key, modify, mret, M_ret.
  destruct (settings !! "deepseek_api_key") as [k|]; [|reflexivity].
  destruct (PyStr.truthy k); reflexivity.
Qed.

Lemma serve_key_truthy (w : World) (r : Request) :
  PyStr.truthy (DEEPSEEK_API_KEY w) = true ->
  PyStr.truthy (DEEPSEEK_API_KEY (serve encode w r)) = true.
Proof.
  intros Hw. destruct r as [id filename saved extracted|net body|settings]; simpl.
  - destruct (upload_document_world encode id filename saved extracted w)
      as [->|(text & vectors & _ & _ & ->)]; exact Hw.
  - destruct (post_ask_question_world encode net body w) as (-> & _). exact Hw.
  - rewrite save_settings_key. now apply override_key_truthy.
Qed.

Lemma serve_posted (w : World) (r : Request) :
  posted (serve encode w r) = posted w
  \/ exists net body call,
      r = AskQuestion net body
      /\ posted (serve encode w r) = posted w ++ [call]
      /\ url call = DEEPSEEK_API_URL
      /\ timeout call = None
      /\ authorization call = Some ("Bearer " +:+ DEEPSEEK_API_KEY w).
Proof.
  destruct r as [id filename saved extracted|net body|settings]; simpl.
  - left. destruct (upload_document_world encode id filename saved extracted w)
      as [->|(text & vectors & _ & _ & ->)]; reflexivity.
  - destruct (post_ask_question_world encode net body w)
      as (_ & _ & _ & [Hsame|[prompt Hnew]]); [now left|].
    right. exists net, body. eexists. split; [reflexivity|].
    split; [exact Hnew|]. repeat split.
  - left. rewrite save_settings_key. unfold override_key.
    destruct (settings !! "deepseek_api_key") as [k|]; [|reflexivity].
    destruct (PyStr.truthy k); reflexivity.
Qed.

Lemma serve_well_stored (w : World) (r : Request) :
  well_stored w -> well_stored (serve encode w r).
Proof.
  intros [Hdom Hdocs].
  destruct r as [id filename saved extracted|net body|settings]; simpl.
  - destruct (upload_document_world encode id filename saved extracted w)
      as [->|(text & vectors & _ & _ & ->)]; [now split|].
    split; simpl.
    + rewrite !dom_insert_L. now rewrite Hdom.
    + intros id' d'. rewrite lookup_insert.
      destruct (decide (id = id')) as [->|Hne]; [|apply Hdocs].
      intros [= <-]. simpl. auto.
  - destruct (post_ask_question_world encode net body w) as (_ & Hd & He & _).
    unfold well_stored. rewrite Hd, He. now split.
  - destruct (save_settings_world settings w) as (Hd & He).
    unfold well_stored. rewrite Hd, He. now split.
Qed.

End OutcomeFacts.


(** X9: an upload is all or nothing.  When it succeeds, the file was
    saved, its text extracted and embedded, and the chunks of the text and
    their vectors are both stored under the new identifier; when it fails,
    whatever the cause, the state is unchanged and the client gets status
    500, never the 400 the inner handler raises; and it never hangs. *)
Theorem upload_document_all_or_nothing
        (encode : list string -> result (list (list float)))
        (document_id filename : string) (saved : result unit)
        (extracted : result string) (w : World) :
  match upload_document encode document_id filename saved extracted w with
  | Done response w' =>
      response = (document_id, "Documento subido correctamente")
      /\ exists text vectors,
          saved = Ok tt /\ extracted = Ok text
          /\ encode (split_chunks text) = Ok vectors
          /\ documents w' !! document_id
             = Some {| doc_filename := filename;
                       doc_path := "uploads/" +:+ document_id +:+ "_" +:+ filename;
                       doc_text := text;
                       doc_chunks := split_chunks text |}
          /\ document_embeddings w' !! document_id = Some vectors
  | Raised e w' => w' = w /\ exists detail, e = HTTPException 500 detail
  | Hung _ => False
  end.
Proof.
  unfold upload_document, try_except, mbind, M_bind, lift, raise, modify, mret, M_ret.
  destruct saved as [[]|e]; simpl; [|eauto].
  destruct extracted as [text|e]; simpl; [|eauto].
  unfold process_document.
  destruct (encode (split_chunks text)) as [vectors|e] eqn:Henc; simpl; [|eauto].
  split; [reflexivity|]. exists text, vectors.
  repeat split; [exact Henc | apply lookup_insert_eq | apply lookup_insert_eq].
Qed.

(** X10: once the chunks have been retrieved, [ask_question] returns
    exactly what [query_deepseek] returns.  So a failure of the backend
    does not become an HTTP error: with a key configured, a response whose
    status is not 200 comes back as a successful answer holding the error
    text. *)
Theorem ask_question_returns_synthesizer_result
        (encode : list string -> result (list (list float)))
        (net : Network) (question_data : Question) (w : World) (d : Document)
        (vectors : list (list float)) (relevant : list string) (scores : list float) :
  documents w !! document_id question_data = Some d ->
  document_embeddings w !! document_id question_data = Some vectors ->
  find_relevant_chunks encode (doc_chunks d) vectors (question question_data) 3
  = Ok (relevant, scores) ->
  ask_question encode net question_data w
  = query_deepseek net (question question_data) relevant w
  /\ (forall r, net = Replies r -> status_code r <> 200%Z ->
        PyStr.truthy (DEEPSEEK_API_KEY w) = true ->
        exists w',
          ask_question encode net question_data w
          = Done (error_text (BackendError (status_code r) (text r))) w').
Proof.
  intros Hd Hv Hfind.
  pose proof (ask_question_after_retrieval encode net question_data w d vectors
                relevant scores Hd Hv Hfind) as Heq.
  split; [exact Heq|].
  intros r -> Hstatus Hkey. rewrite Heq.
  unfold query_deepseek. rewrite Hkey. simpl.
  destruct (Z.eqb_spec (status_code r) 200) as [Hok|_]; [contradiction|].
  eexists. reflexivity.
Qed.

Lemma ask_question_returns_synthesizer_result_witness :
  ask_question unit_encode (Replies server_error_response)
               {| question := "What is the title?"; document_id := "d1" |}
               stored_world
  = query_deepseek (Replies server_error_response) "What is the title?"
                   ["Title Paragraph one text here. Paragraph two text here."]
                   stored_world
  /\ (forall r, Replies server_error_response = Replies r ->
        status_code r <> 200%Z ->
        PyStr.truthy (DEEPSEEK_API_KEY stored_world) = true ->
        exists w',
          ask_question unit_encode (Replies server_error_response)
                       {| question := "What is the title?"; document_id := "d1" |}
                       stored_world
          = Done (error_text (BackendError (status_code r) (text r))) w').
Proof.
  apply (ask_question_returns_synthesizer_result unit_encode
           (Replies server_error_response)
           {| question := "What is the title?"; document_id := "d1" |}
           stored_world
           {| doc_filename := "notes.txt";
              doc_path := "uploads/d1_notes.txt";
              doc_text := scenario_text;
              doc_chunks := ["Title Paragraph one text here. Paragraph two text here."] |}
           [[1%float; 0%float]]
           ["Title Paragraph one text here. Paragraph two text here."]
           [1%float]);
    vm_compute; reflexivity.
Defined.

(** X11: the statuses of [ask_question].  For an identifier that is not in
    the document table the answer is 404, before anything is embedded and
    with the state unchanged; for a stored document the handler answers,
    hangs on the backend, or fails with status 500 and the state unchanged. *)
Theorem ask_question_statuses
        (encode : list string -> result (list (list float)))
        (net : Network) (question_data : Question) (w : World) :
  match documents w !! document_id question_data with
  | None =>
      ask_question encode net question_data w
      = Raised (HTTPException 404 "Documento no encontrado") w
  | Some _ =>
      match ask_question encode net question_data w with
      | Done _ _ | Hung _ => True
      | Raised e w' => w' = w /\ exists detail, e = HTTPException 500 detail
      end
  end.
Proof. apply ask_question_status. Qed.

(** X12: a document that was stored without any chunk cannot be
    questioned: every question about it fails with status 500, and the
    backend is not contacted. *)
Theorem question_on_document_without_chunks
        (encode : list string -> result (list (list float)))
        (net : Network) (question_data : Question) (w : World) (d : Document) :
  documents w !! document_id question_data = Some d ->
  document_embeddings w !! document_id question_data = Some [] ->
  exists detail,
    ask_question encode net question_data w = Raised (HTTPException 500 detail) w.
Proof.
  intros Hd Hv.
  unfold ask_question, mbind, M_bind, get_world, try_except, raise, lookup_key. simpl.
  rewrite Hd, Hv. simpl.
  destruct (find_relevant_chunks_without_vectors encode (doc_chunks d)
              (question question_data) 3) as [e ->].
  simpl. eauto.
Qed.

Lemma question_on_document_without_chunks_witness :
  exists detail,
    ask_question unit_encode (Replies answer_response)
                 {| question := "What is the title?"; document_id := "d0" |}
                 (serve unit_encode (initial_world "B")
                        (UploadDocument "d0" "empty.txt" (Ok tt) (Ok EmptyString)))
    = Raised (HTTPException 500 detail)
             (serve unit_encode (initial_world "B")
                    (UploadDocument "d0" "empty.txt" (Ok tt) (Ok EmptyString))).
Proof.
  apply (question_on_document_without_chunks unit_encode (Replies answer_response)
           {| question := "What is the title?"; document_id := "d0" |}
           (serve unit_encode (initial_world "B")
                  (UploadDocument "d0" "empty.txt" (Ok tt) (Ok EmptyString)))
           (empty_document "d0" "empty.txt" EmptyString));
    vm_compute; reflexivity.
Defined.

(** X13: a configured key can be replaced but not removed: once the
    process-wide key is not empty, it is not empty after any sequence of
    uploads, questions and settings requests. *)
Theorem configured_key_stays_configured
        (encode : list string -> result (list (list float)))
        (requests : list Request) (w : World) :
  PyStr.truthy (DEEPSEEK_API_KEY w) = true ->
  PyStr.truthy (DEEPSEEK_API_KEY (serve_all encode requests w)) = true.
Proof.
  revert w. unfold serve_all.
  induction requests as [|r rest IH]; intros w Hw; simpl; [exact Hw|].
  apply IH. now apply serve_key_truthy.
Qed.

Lemma configured_key_stays_configured_witness :
  PyStr.truthy
    (DEEPSEEK_API_KEY
       (serve_all unit_encode
          [SaveSettings {["deepseek_api_key" := EmptyString]};
           AskQuestion Silent body_with_credential]
          stored_world)) = true.
Proof.
  apply (configured_key_stays_configured unit_encode
           [SaveSettings {["deepseek_api_key" := EmptyString]};
            AskQuestion Silent body_with_credential]
           stored_world).
  reflexivity.
Defined.

(** X14: a key saved through the settings is the one the next question
    uses: after [save_settings] with a non-empty key, that key is the
    process-wide key, and a call sent by a following question is
    authorized with it. *)
Theorem saved_key_authorizes_next_question
        (encode : list string -> result (list (list float)))
        (settings : gmap string string) (key : string) (w : World) :
  settings !! "deepseek_api_key" = Some key ->
  PyStr.truthy key = true ->
  let w1 := serve encode w (SaveSettings settings) in
  DEEPSEEK_API_KEY w1 = key
  /\ posted w1 = posted w
  /\ forall net body call,
       call ∈ posted (serve encode w1 (AskQuestion net body)) ->
       call ∈ posted w \/ authorization call = Some ("Bearer " +:+ key).
Proof.
  intros Hsome Htruthy w1.
  assert (w1 = set_DEEPSEEK_API_KEY key w) as Hw1.
  { unfold w1. simpl. rewrite save_settings_key. unfold override_key.
    now rewrite Hsome, Htruthy. }
  rewrite Hw1. split; [reflexivity|]. split; [reflexivity|].
  intros net body call Hcall. simpl in Hcall.
  destruct (post_ask_question_world encode net body (set_DEEPSEEK_API_KEY key w))
    as (_ & _ & _ & [Hsame|[prompt Hnew]]).
  - left. now rewrite Hsame in Hcall.
  - rewrite Hnew in Hcall.
    apply elem_of_app in Hcall as [Hold|Hin]; [now left|].
    apply list_elem_of_singleton in Hin as ->. right. reflexivity.
Qed.

Lemma saved_key_authorizes_next_question_witness :
  let w1 := serve unit_encode stored_world
                  (SaveSettings {["deepseek_api_key" := "K"]}) in
  DEEPSEEK_API_KEY w1 = "K"
  /\ posted w1 = posted stored_world
  /\ forall net body call,
       call ∈ posted (serve unit_encode w1 (AskQuestion net body)) ->
       call ∈ posted stored_world \/ authorization call = Some ("Bearer " +:+ "K").
Proof.
  apply (saved_key_authorizes_next_question unit_encode
           {["deepseek_api_key" := "K"]} "K" stored_world);
    reflexivity.
Defined.

(** X15: after any sequence of requests the two tables hold the same
    identifiers, and every stored document holds the chunks of its own
    text and the path built from its identifier and its file name. *)
Theorem stored_documents_are_consistent
        (encode : list string -> result (list (list float)))
        (requests : list Request) (key : string) :
  well_stored (serve_all encode requests (initial_world key)).
Proof.
  assert (well_stored (initial_world key)) as Hinit.
  { split; [reflexivity|]. intros id d Hd. simpl in Hd.
    rewrite lookup_empty in Hd. discriminate. }
  revert Hinit. generalize (initial_world key). unfold serve_all.
  induction requests as [|r rest IH]; intros w Hw; simpl; [exact Hw|].
  apply IH. now apply serve_well_stored.
Qed.

(** X16: only a question contacts the backend, and at most once: a request
    leaves the list of calls as it was, or it is a question and adds one
    call, to the DeepSeek URL, without a timeout, authorized with the
    process-wide key; calls already sent are never altered. *)
Theorem only_questions_contact_the_backend
        (encode : list string -> result (list (list float)))
        (w : World) (r : Request) :
  posted (serve encode w r) = posted w
  \/ exists net body call,
      r = AskQuestion net body
      /\ posted (serve encode w r) = posted w ++ [call]
      /\ url call = DEEPSEEK_API_URL
      /\ timeout call = None
      /\ authorization call = Some ("Bearer " +:+ DEEPSEEK_API_KEY w).
Proof. apply serve_posted. Qed.

(** ** From upload to answer *)

(** X17: with an embedder that returns one vector per chunk, all of the
    dimension of the question vector, a question about a document that was
    uploaded with at least one chunk is handed to the synthesizer with the
    [min 3 n] best chunks of that document: the handler returns what
    [query_deepseek] returns for them. *)
Theorem question_after_upload
        (encode : list string -> result (list (list float)))
        (net : Network) (document_id filename text question : string)
        (vectors rest : list (list float)) (q : list float) (w : World) :
  encode (split_chunks text) = Ok vectors ->
  length vectors = length (split_chunks text) ->
  encode [question] = Ok (q :: rest) ->
  NumPy.aligned vectors q = true ->
  let w1 := final_world
              (upload_document encode document_id filename (Ok tt) (Ok text) w) in
  exists relevant scores,
    retrieve q vectors (split_chunks text) 3 = Ok (relevant, scores)
    /\ Z.of_nat (length relevant) = Z.min 3 (Z.of_nat (length (split_chunks text)))
    /\ ask_question encode net
                    {| question := question; document_id := document_id |} w1
       = query_deepseek net question relevant w1.
Proof.
  intros Henc Hlen Hq Hal w1.
  destruct (RetrieveFacts.cosine_similarities_aligned vectors q Hal)
    as (similarities & Hcos & Hsims & _).
  pose proof (RetrieveFacts.retrieve_aligned q vectors (split_chunks text) 3
                similarities Hcos Hsims (eq_sym Hlen)) as Hret.
  eexists _, _. split; [exact Hret|]. split.
  - rewrite length_map, <- Hlen, <- Hsims.
    apply RetrieveFacts.length_top_indices. lia.
  - assert (w1 = set_document_embeddings document_id vectors
                   (set_documents document_id
                      {| doc_filename := filename;
                         doc_path := "uploads/" +:+ document_id +:+ "_" +:+ filename;
                         doc_text := text;
                         doc_chunks := split_chunks text |} w)) as ->.
    { unfold w1, upload_document, try_except, mbind, M_bind, lift, raise, modify,
        mret, M_ret, process_document. simpl. rewrite Henc. reflexivity. }
    eapply ask_question_after_retrieval; simpl.
    + apply lookup_insert_eq.
    + apply lookup_insert_eq.
    + unfold find_relevant_chunks. rewrite Hq. simpl. exact Hret.
Qed.

Lemma question_after_upload_witness :
  let w1 := final_world
              (upload_document unit_encode "d1" "notes.txt" (Ok tt)
                               (Ok scenario_text) (initial_world "B")) in
  exists relevant scores,
    retrieve [1%float; 0%float] [[1%float; 0%float]] (split_chunks scenario_text) 3
    = Ok (relevant, scores)
    /\ Z.of_nat (length relevant)
       = Z.min 3 (Z.of_nat (length (split_chunks scenario_text)))
    /\ ask_question unit_encode (Replies answer_response)
                    {| question := "What is the title?"; document_id := "d1" |} w1
       = query_deepseek (Replies answer_response) "What is the title?" relevant w1.
Proof.
  apply (question_after_upload unit_encode (Replies answer_response)
           "d1" "notes.txt" scenario_text "What is the title?"
           [[1%float; 0%float]] [] [1%float; 0%float] (initial_world "B"));
    reflexivity.
Defined.

(** ** Text extraction *)

Section ExtractionFacts.
Import PyStr.

Lemma rfind_append (c : ascii) (a b : string) :
  OsPath.rfind c (a +:+ b)
  = match OsPath.rfind c b with
    | Some i => Some (String.length a + i)
    | None => OsPath.rfind c a
    end.
Proof.
  induction a as [|x a IH].
  - change (EmptyString +:+ b) with b. now destruct (OsPath.rfind c b).
  - change (String x a +:+ b) with (String x (a +:+ b)).
    cbn [OsPath.rfind String.length]. rewrite IH.
    destruct (OsPath.rfind c b); [reflexivity|].
    reflexivity.
Qed.

Lemma upload_path_without_period (document_id filename : string) :
  OsPath.rfind "." document_id = None ->
  OsPath.rfind "." filename = None ->
  OsPath.splitext ("uploads/" +:+ document_id +:+ "_" +:+ filename)
  = ("uploads/" +:+ document_id +:+ "_" +:+ filename, EmptyString).
Proof.
  intros Hid Hname. unfold OsPath.splitext.
  rewrite !rfind_append, Hname, Hid. reflexivity.
Qed.

Lemma split_nonempty (sep : ascii) (s : string) : split sep s <> [].
Proof.
  destruct s as [|c s]; simpl; [discriminate|].
  destruct (Ascii.eqb c sep); [discriminate|].
  destruct (split sep s); discriminate.
Qed.

(** A newline between two texts separates their lines. *)
Lemma split_append (a b : string) :
  split nl (a +:+ String nl b) = split nl a ++ split nl b.
Proof.
  induction a as [|c a IH].
  - reflexivity.
  - change (String c a +:+ String nl b) with (String c (a +:+ String nl b)).
    cbn [split]. rewrite IH.
    destruct (Ascii.eqb c nl); [reflexivity|].
    pose proof (split_nonempty nl a) as Hne.
    destruct (split nl a) as [|w ws]; [contradiction | reflexivity].
Qed.

Lemma kept_segments_append (a b : string) :
  kept_segments (a +:+ String nl b) = kept_segments a ++ kept_segments b.
Proof. unfold kept_segments. now rewrite split_append, List.filter_app. Qed.

Lemma pdf_text_fold (pages : list string) (acc : string) :
  fold_left (fun text page => text +:+ (page +:+ newline)) pages acc
  = acc +:+ pdf_text pages.
Proof.
  unfold pdf_text. revert acc.
  induction pages as [|p pages IH]; intros acc; simpl.
  - induction acc as [|c acc IHacc]; [reflexivity|].
    change (String c acc = String c (acc +:+ EmptyString)). now rewrite <- IHacc.
  - rewrite IH. rewrite (IH (EmptyString +:+ (p +:+ newline))).
    change (EmptyString +:+ (p +:+ newline)) with (p +:+ newline).
    symmetry. apply append_assoc.
Qed.

Lemma pdf_text_cons (p : string) (pages : list string) :
  pdf_text (p :: pages) = p +:+ String nl (pdf_text pages).
Proof.
  unfold pdf_text at 1. simpl. rewrite pdf_text_fold.
  change (EmptyString +:+ (p +:+ newline)) with (p +:+ newline).
  rewrite <- append_assoc. reflexivity.
Qed.

Lemma kept_segments_pdf_text (pages : list string) :
  kept_segments (pdf_text pages) = concat (map kept_segments pages).
Proof.
  induction pages as [|p pages IH]; [reflexivity|].
  rewrite pdf_text_cons, kept_segments_append, IH. reflexivity.
Qed.

Lemma kept_segments_join (paragraphs : list string) :
  kept_segments (join newline paragraphs) = concat (map kept_segments paragraphs).
Proof.
  induction paragraphs as [|p rest IH]; [reflexivity|].
  destruct rest as [|p' rest].
  - simpl. now rewrite app_nil_r.
  - change (join newline (p :: p' :: rest))
      with (p +:+ String nl (join newline (p' :: rest))).
    rewrite kept_segments_append, IH. reflexivity.
Qed.

End ExtractionFacts.

(** X18: a file whose name has no period has no extension, and its upload
    is refused whatever the file holds: the handler fails with status 500
    and nothing is stored.  (The identifier, a UUID, has no period.) *)
Theorem upload_without_extension_is_refused
        (encode : list string -> result (list (list float)))
        (document_id filename : string) (saved : result unit)
        (file : StoredFile) (w : World) :
  OsPath.rfind "." document_id = None ->
  OsPath.rfind "." filename = None ->
  extract_text ("uploads/" +:+ document_id +:+ "_" +:+ filename) file
  = Raise (Exception "Formato de archivo no soportado: ")
  /\ exists detail,
      upload_stored_file encode document_id filename saved file w
      = Raised (HTTPException 500 detail) w.
Proof.
  intros Hid Hname.
  assert (extract_text ("uploads/" +:+ document_id +:+ "_" +:+ filename) file
          = Raise (Exception "Formato de archivo no soportado: ")) as Hext.
  { unfold extract_text. rewrite upload_path_without_period by assumption.
    reflexivity. }
  split; [exact Hext|].
  unfold upload_stored_file. rewrite Hext.
  unfold upload_document, try_except, mbind, M_bind, lift, raise.
  destruct saved as [[]|e]; simpl; eauto.
Qed.

Lemma upload_without_extension_is_refused_witness :
  extract_text ("uploads/" +:+ "d1" +:+ "_" +:+ "README") two_page_pdf
  = Raise (Exception "Formato de archivo no soportado: ")
  /\ exists detail,
      upload_stored_file unit_encode "d1" "README" (Ok tt) two_page_pdf
                         (initial_world "B")
      = Raised (HTTPException 500 detail) (initial_world "B").
Proof.
  apply (upload_without_extension_is_refused unit_encode "d1" "README" (Ok tt)
           two_page_pdf (initial_world "B")); reflexivity.
Defined.

(** X19: in the text extracted from a PDF every page ends its last line:
    the lines the chunker keeps are the kept lines of the first page, then
    those of the second, and so on, and no line runs across two pages.
    The extension is matched without regard to letter case. *)
Theorem pdf_pages_keep_their_lines
        (file_path : string) (file : StoredFile) (pages : list string) :
  OsPath.lower (snd (OsPath.splitext file_path)) = ".pdf" ->
  pdf_pages file = Ok pages ->
  exists text,
    extract_text file_path file = Ok text
    /\ kept_segments text = concat (map kept_segments pages)
    /\ split_chunks text
       = accumulate overflows_sum EmptyString (concat (map kept_segments pages)).
Proof.
  intros Hext Hpages. exists (pdf_text pages).
  split; [unfold extract_text; now rewrite Hext, Hpages|].
  split; [apply kept_segments_pdf_text|].
  rewrite split_chunks_accumulate. unfold chunk_reference_sum.
  now rewrite kept_segments_pdf_text.
Qed.

Lemma pdf_pages_keep_their_lines_witness :
  exists text,
    extract_text "uploads/d1_Report.PDF" two_page_pdf = Ok text
    /\ kept_segments text
       = concat (map kept_segments ["First page line"; "Second page line"])
    /\ split_chunks text
       = accumulate overflows_sum EmptyString
           (concat (map kept_segments ["First page line"; "Second page line"])).
Proof.
  apply (pdf_pages_keep_their_lines "uploads/d1_Report.PDF" two_page_pdf
           ["First page line"; "Second page line"]); reflexivity.
Defined.

(** X20: in the text extracted from a Word document the paragraphs are
    joined by newlines, so the lines the chunker keeps are the kept lines
    of the paragraphs in order, and a document without paragraphs yields
    the empty text and no chunk. *)
Theorem docx_paragraphs_keep_their_lines
        (file_path : string) (file : StoredFile) (paragraphs : list string) :
  OsPath.lower (snd (OsPath.splitext file_path)) = ".docx" ->
  docx_paragraphs file = Ok paragraphs ->
  exists text,
    extract_text file_path file = Ok text
    /\ kept_segments text = concat (map kept_segments paragraphs)
    /\ (paragraphs = [] -> text = EmptyString /\ split_chunks text = []).
Proof.
  intros Hext Hpars. exists (PyStr.join newline paragraphs).
  split; [unfold extract_text; now rewrite Hext, Hpars|].
  split; [apply kept_segments_join|].
  intros ->. split; reflexivity.
Qed.

Lemma docx_paragraphs_keep_their_lines_witness :
  exists text,
    extract_text "uploads/d1_notes.docx"
                 {| pdf_pages := Raise (Exception "EOF marker not found");
                    docx_paragraphs := Ok ["Heading line"; "Body paragraph"];
                    plain_text := Ok "PK" |}
    = Ok text
    /\ kept_segments text
       = concat (map kept_segments ["Heading line"; "Body paragraph"])
    /\ (["Heading line"; "Body paragraph"] = [] ->
        text = EmptyString /\ split_chunks text = []).
Proof.
  apply (docx_paragraphs_keep_their_lines "uploads/d1_notes.docx"
           {| pdf_pages := Raise (Exception "EOF marker not found");
              docx_paragraphs := Ok ["Heading line"; "Body paragraph"];
              plain_text := Ok "PK" |}
           ["Heading line"; "Body paragraph"]); reflexivity.
Defined.

(** ** The selection under any sort numpy may run

    The facts about which chunks are selected do not depend on the order
    the sort gives to equal values: they hold for every sort that keeps
    numpy's promise. *)

Section AnySort.
Variable argsort : list float -> list nat.
Hypothesis sorts : argsort_contract argsort.

Lemma top_indices_by_NoDup (similarities : list float) (top_k : Z) :
  NoDup (top_indices_by argsort similarities top_k).
Proof.
  unfold top_indices_by, NumPy.slice_from. rewrite reverse_Permutation.
  apply NoDup_drop. destruct (sorts similarities) as [-> _]. apply NoDup_seq.
Qed.

Lemma position_in_argsort (similarities : list float) (i : nat) :
  i < length similarities -> exists b, argsort similarities !! b = Some i.
Proof.
  intros Hi. apply list_elem_of_lookup.
  destruct (sorts similarities) as [-> _]. apply elem_of_seq. lia.
Qed.

(** A chunk with an undefined score is selected ahead of every selected
    chunk with a defined score. *)
Lemma top_indices_by_undefined_first (similarities : list float) (top_k : Z) :
  undefined_ranked_first similarities (top_indices_by argsort similarities top_k).
Proof.
  intros i j q Hnan Hi Hnum Hq.
  destruct (position_in_argsort similarities i Hi) as [b Hb].
  pose proof (lookup_lt_Some _ _ _ Hb) as Hblt.
  destruct (top_indices_by_suffix argsort sorts similarities top_k) as (n & Htop & _).
  rewrite Htop in Hq |- *.
  apply RetrieveFacts.suffix_lookup_1 in Hq as [Hq1 Hq2].
  destruct (sorts similarities) as [_ Hasc].
  destruct (Nat.lt_trichotomy b (length (argsort similarities) - S q))
    as [Hlt|[Heq|Hgt]].
  - exfalso. pose proof (Hasc _ _ _ _ Hlt Hb Hq2) as Hord.
    rewrite RetrieveFacts.sort_lt_nan_r in Hord by assumption. discriminate.
  - exfalso. subst b. rewrite Hb in Hq2. injection Hq2 as ->. congruence.
  - exists (length (argsort similarities) - S b). split; [lia|].
    apply RetrieveFacts.suffix_lookup_2; [lia | exact Hb].
Qed.

(** A chunk that is left out does not score higher than one that is
    selected. *)
Lemma top_indices_by_maximal (similarities : list float) (top_k : Z) (i j : nat) :
  i ∈ top_indices_by argsort similarities top_k ->
  j < length similarities ->
  j ∉ top_indices_by argsort similarities top_k ->
  PrimFloat.ltb (score_at similarities i) (score_at similarities j) = false.
Proof.
  intros Hi Hj Hnot.
  destruct (position_in_argsort similarities j Hj) as [b Hb].
  destruct (top_indices_by_suffix argsort sorts similarities top_k) as (n & Htop & _).
  rewrite Htop in Hi, Hnot.
  apply list_elem_of_lookup in Hi as [p Hp].
  apply RetrieveFacts.suffix_lookup_1 in Hp as [Hp1 Hp2].
  destruct (Nat.le_gt_cases n b) as [Hnb|Hbn].
  - exfalso. apply Hnot. eapply list_elem_of_lookup_2.
    apply (RetrieveFacts.suffix_lookup_2 _ n b); [exact Hnb | exact Hb].
  - destruct (sorts similarities) as [_ Hasc].
    assert (b < length (argsort similarities) - S p) as Hlt by lia.
    pose proof (Hasc _ _ _ _ Hlt Hb Hp2) as Hord.
    destruct (PrimFloat.ltb (score_at similarities i) (score_at similarities j))
      eqn:Hcmp; [|reflexivity].
    apply FloatFacts.ltb_sort_lt in Hcmp. congruence.
Qed.

End AnySort.
